(** * Bisect: an interactive bisection tool over a list of items

    A shallow embedding of the two historical variants of [bisect]:
    - the ternary engine (pass / fail / ignore), in [Section Engine];
    - the binary engine (pass / fail) of [main.ts], in [Module Binary].

    Conventions of the embedding.
    - JavaScript numbers are modelled by [Z]: every number the program
      handles is an index or a length, far below 2^53, where floating
      point arithmetic on integers is exact; [Math.floor (x / 2)] is
      [x / 2] on [Z] (floor division).
    - JavaScript strings are modelled by [string] (bytes of the UTF-8
      encoding).  The only pattern the program searches for is the ASCII
      token [@i], whose occurrences are the same in both encodings.
    - The external world is part of the state: [spawned] lists the
      commands handed to the shell, in order, and [prompts] lists the
      calls of [confirmResult], in order, with the index of the item shown
      and the verdict obtained.
    - The user (the oracle) is a function of the number of verdicts given
      so far and of the index of the item shown: this covers an oracle
      that answers by item as well as an arbitrary sequence of answers.
    - [while] loops take fuel and return [None] when it runs out. *)

From Stdlib Require Import ZArith List String Ascii Bool Lia Permutation.
From Stdlib Require Import DecimalString.
Import ListNotations.

Local Open Scope Z_scope.
Local Infix "+++" := String.append (right associativity, at level 60).

(** ** Strings *)

Definition dq : string := String (ascii_of_nat 34) EmptyString.
Definition nl : string := String (ascii_of_nat 10) EmptyString.

Fixpoint string_drop (n : nat) (s : string) : string :=
  match n, s with
  | O, _ => s
  | S n', String _ rest => string_drop n' rest
  | S _, EmptyString => EmptyString
  end.

Fixpoint string_repeat (s : string) (n : nat) : string :=
  match n with
  | O => EmptyString
  | S n' => s +++ string_repeat s n'
  end.

Fixpoint join (sep : string) (l : list string) : string :=
  match l with
  | [] => EmptyString
  | [x] => x
  | x :: rest => x +++ sep +++ join sep rest
  end.

(** [s.includes(t)] *)
Fixpoint includes (s t : string) : bool :=
  prefix t s ||
  match s with
  | EmptyString => false
  | String _ rest => includes rest t
  end.

(** A number printed inside a template literal. *)
Definition show_Z (z : Z) : string := NilZero.string_of_int (Z.to_int z).

(** A string-or-undefined printed inside a template literal. *)
Definition show_item (o : option string) : string :=
  match o with
  | Some s => s
  | None => "undefined"%string
  end.

(** Truthiness of a string-or-undefined: [undefined] and the empty string
    are falsy. *)
Definition truthy (o : option string) : bool :=
  match o with
  | Some (String _ _) => true
  | _ => false
  end.

(** The expansion of a replacement template ([GetSubstitution] of
    ECMAScript) for a string pattern, which has no captures: [$$] is a
    dollar sign, [$&] the match, [$`] the text before the match and [$']
    the text after it; any other dollar sign stands for itself. *)
Fixpoint getSubstitution (matched before after template : string) : string :=
  match template with
  | EmptyString => EmptyString
  | String c rest =>
    if Ascii.eqb c "$" then
      match rest with
      | String d rest' =>
        if Ascii.eqb d "$" then
          String "$" (getSubstitution matched before after rest')
        else if Ascii.eqb d "&" then
          matched +++ getSubstitution matched before after rest'
        else if Ascii.eqb d "`" then
          before +++ getSubstitution matched before after rest'
        else if Ascii.eqb d "'" then
          after +++ getSubstitution matched before after rest'
        else String c (getSubstitution matched before after rest)
      | EmptyString => String c EmptyString
      end
    else String c (getSubstitution matched before after rest)
  end.

(** [s.replaceAll(searchValue, replaceValue)] for a non-empty string
    pattern: the occurrences are found from left to right and do not
    overlap.  [skip] counts the characters of a match still to pass over
    and [before] is the text already passed. *)
Fixpoint replaceAll_from (searchValue replaceValue : string) (skip : nat)
    (before s : string) : string :=
  match s with
  | EmptyString => EmptyString
  | String c rest =>
    match skip with
    | S k =>
      replaceAll_from searchValue replaceValue k
        (before +++ String c EmptyString) rest
    | O =>
      if prefix searchValue s then
        getSubstitution searchValue before
          (string_drop (String.length searchValue) s) replaceValue
        +++ replaceAll_from searchValue replaceValue
              (String.length searchValue - 1)
              (before +++ String c EmptyString) rest
      else
        String c (replaceAll_from searchValue replaceValue O
                    (before +++ String c EmptyString) rest)
    end
  end.

Definition replaceAll (s searchValue replaceValue : string) : string :=
  replaceAll_from searchValue replaceValue O EmptyString s.

(** [s.replace(searchValue, replaceValue)] for a string pattern: only
    the first occurrence is replaced. *)
Fixpoint replace_from (searchValue replaceValue before s : string) : string :=
  if prefix searchValue s then
    getSubstitution searchValue before
      (string_drop (String.length searchValue) s) replaceValue
    +++ string_drop (String.length searchValue) s
  else
    match s with
    | EmptyString => EmptyString
    | String c rest =>
      String c (replace_from searchValue replaceValue
                  (before +++ String c EmptyString) rest)
    end.

Definition replace (s searchValue replaceValue : string) : string :=
  replace_from searchValue replaceValue EmptyString s.

(** *** Whitespace, case and lines

    The characters [trim] removes are the white space and the line
    terminators of ECMAScript, here in their UTF-8 encoding: U+0009 to
    U+000D and U+0020 (one byte); U+00A0 (C2 A0); U+1680 (E1 9A 80);
    U+2000 to U+200A, U+2028, U+2029, U+202F (E2 80 ..); U+205F
    (E2 81 9F); U+3000 (E3 80 80); U+FEFF (EF BB BF). *)

Definition code (c : ascii) : nat := nat_of_ascii c.

Definition is_ws1 (c : ascii) : bool :=
  ((9 <=? code c) && (code c <=? 13) || (code c =? 32))%nat.

(** The first byte of a white space character of two or three bytes. *)
Definition is_ws_lead (c : ascii) : bool :=
  ((code c =? 194) || (code c =? 225) || (code c =? 226)
   || (code c =? 227) || (code c =? 239))%nat.

Definition is_ws2 (c d : ascii) : bool :=
  ((code c =? 194) && (code d =? 160))%nat.

Definition is_ws3 (c d e : ascii) : bool :=
  ((code c =? 225) && (code d =? 154) && (code e =? 128)
   || (code c =? 226) && (code d =? 128)
      && ((128 <=? code e) && (code e <=? 138)
          || (code e =? 168) || (code e =? 169) || (code e =? 175))
   || (code c =? 226) && (code d =? 129) && (code e =? 159)
   || (code c =? 227) && (code d =? 128) && (code e =? 128)
   || (code c =? 239) && (code d =? 187) && (code e =? 191))%nat.

(** [s.trimStart()] *)
Fixpoint trimStart (s : string) : string :=
  match s with
  | EmptyString => EmptyString
  | String c r =>
    if is_ws1 c then trimStart r
    else if negb (is_ws_lead c) then s
    else
      match r with
      | EmptyString => s
      | String d r' =>
        if is_ws2 c d then trimStart r'
        else
          match r' with
          | EmptyString => s
          | String e r'' => if is_ws3 c d e then trimStart r'' else s
          end
      end
  end.

(** [s.trim().length === 0] *)
Definition blank (s : string) : bool :=
  match trimStart s with
  | EmptyString => true
  | String _ _ => false
  end.

(** [s.trimEnd()]: what is left of [s] before its last run of white
    space. *)
Fixpoint trimEnd (s : string) : string :=
  if blank s then EmptyString
  else
    match s with
    | EmptyString => EmptyString
    | String c r => String c (trimEnd r)
    end.

(** [s.trim()] *)
Definition trim (s : string) : string := trimEnd (trimStart s).

Definition lower (c : ascii) : ascii :=
  if ((65 <=? code c) && (code c <=? 90))%nat then ascii_of_nat (code c + 32)
  else c.

(** [s.toLowerCase()] on the letters of ASCII; the other bytes are kept.
    The program compares the result with ASCII words only ([p], [pass],
    [f], [fail], [i], [ignore]).  Outside ASCII, JavaScript lowers a
    character to characters outside ASCII, but for the Kelvin sign, which
    becomes [k], a letter of none of these words: the comparison has the
    same outcome. *)
Fixpoint toLowerCase (s : string) : string :=
  match s with
  | EmptyString => EmptyString
  | String c r => String (lower c) (toLowerCase r)
  end.

(** [s.split("\n")] *)
Fixpoint split_lines (s : string) : list string :=
  match s with
  | EmptyString => [EmptyString]
  | String c r =>
    if (code c =? 10)%nat then EmptyString :: split_lines r
    else
      match split_lines r with
      | line :: lines => String c line :: lines
      | [] => [String c EmptyString]
      end
  end.

(** ** Data model *)

Record BisectOptions := mkOptions {
  testCommand : string;
  itemsFile : string;
  nextStateCommand : option string
}.

Inductive TestResult := PASS | FAIL | IGNORE.

Definition TestResult_eqb (a b : TestResult) : bool :=
  match a, b with
  | PASS, PASS | FAIL, FAIL | IGNORE, IGNORE => true
  | _, _ => false
  end.

(** The local variables of [bisect] and the two logs of the world. *)
Record State := mkState {
  left : Z;
  right : Z;
  lastGoodIndex : Z;
  firstBadIndex : Z;
  ignoredItems : list Z;
  prompts : list (Z * TestResult);
  spawned : list string
}.

Definition Oracle := nat -> Z -> TestResult.

(** [items[i]] *)
Definition item_at (items : list string) (i : Z) : option string :=
  if i <? 0 then None else nth_error items (Z.to_nat i).

(** The values [lo, lo + 1, ..., hi - 1] of the variable of a counting
    [for] loop. *)
Definition zrange (lo hi : Z) : list Z :=
  map (fun k => lo + Z.of_nat k) (seq 0 (Z.to_nat (hi - lo))).

(** ** The functions around the search loop

    These are the same in the two variants. *)



(** The files that can be read, by name, with their text. *)
Definition Files := string -> option string.

(** [loadItems]: [None] is [Deno.exit(1)] after a failed read. *)
Definition loadItems (files : Files) (filename : string)
    : option (list string) :=
  match files filename with
  | Some text => Some (filter (fun line => negb (blank line)) (split_lines text))
  | None => None
  end.

(** The [switch] of [confirmResult] on one answer to [prompt] (a string,
    or null): the verdict returned, or [None] for the message about an
    invalid input. *)
Definition recognize (answer : option string) : option TestResult :=
  match answer with
  | None => None
  | Some text =>
    let input := trim (toLowerCase text) in
    if (input =? "p")%string || (input =? "pass")%string then Some PASS
    else if (input =? "f")%string || (input =? "fail")%string then Some FAIL
    else if (input =? "i")%string || (input =? "ignore")%string
    then Some IGNORE
    else None
  end.

(** [confirmResult] on the answers the user is going to give: the verdict
    and the answers left, or [None] when the answers run out with the
    prompt still open. *)
Fixpoint confirm_answers (answers : list (option string))
    : option (TestResult * list (option string)) :=
  match answers with
  | [] => None
  | answer :: rest =>
    match recognize answer with
    | Some result => Some (result, rest)
    | None => confirm_answers rest
    end
  end.


Definition spaces (n : nat) : string := string_repeat " " n.

(** The words [confirmResult] accepts, with their verdicts. *)
Definition verdict_words : list (string * TestResult) :=
  [ ("p", PASS); ("pass", PASS); ("f", FAIL); ("fail", FAIL);
    ("i", IGNORE); ("ignore", IGNORE) ]%string.

Definition newline_free (s : string) : Prop :=
  ~ In (ascii_of_nat 10) (list_ascii_of_string s).

(** ** The binary engine of [main.ts] *)

Module Binary.

Record State := mkState {
  left : Z;
  right : Z;
  lastGoodIndex : Z;
  firstBadIndex : Z;
  prompts : list (Z * bool);
  spawned : list string
}.

(** The answer to [confirm]. *)
Definition Oracle := nat -> Z -> bool.

Section Loop.
Variable options : BisectOptions.
Variable items : list string.
Variable oracle : Oracle.

Definition runCommand (command : string) (item : option string)
    (st : State) : State :=
  let finalCommand :=
    if truthy item then replace command "@i" (show_item item)
    else command in
  mkState (left st) (right st) (lastGoodIndex st) (firstBadIndex st)
    (prompts st) (spawned st ++ [finalCommand]).

Definition confirmResult (index : Z) (st : State) : bool * State :=
  let passed := oracle (List.length (prompts st)) index in
  (passed,
   mkState (left st) (right st) (lastGoodIndex st) (firstBadIndex st)
     (prompts st ++ [(index, passed)]) (spawned st)).

(** The body of [while (left <= right)]. *)
Definition loop_body (st : State) : State :=
  let mid := (left st + right st) / 2 in
  let currentItem := item_at items mid in
  let st :=
    if truthy (nextStateCommand options) then
      runCommand (show_item (nextStateCommand options)) currentItem st
    else st in
  let st := runCommand (testCommand options) None st in
  let (passed, st) := confirmResult mid st in
  if passed then
    mkState (mid + 1) (right st) mid (firstBadIndex st)
      (prompts st) (spawned st)
  else
    mkState (left st) (mid - 1) (lastGoodIndex st) mid
      (prompts st) (spawned st).

Fixpoint bisect_loop (fuel : nat) (st : State) : option State :=
  if left st <=? right st then
    match fuel with
    | O => None
    | S fuel' => bisect_loop fuel' (loop_body st)
    end
  else Some st.

Definition initial : State :=
  mkState 0 (Z.of_nat (List.length items) - 1) (-1) (-1) [] [].

Definition quoted (i : Z) : string :=
  dq +++ show_item (item_at items i) +++ dq.

(** The lines printed after the loop, one per [console.log]. *)
Definition report (st : State) : list string :=
  [ nl +++ string_repeat "=" 50; "🎉 Bisect complete!"%string ]
  ++ (if lastGoodIndex st >=? 0 then
        [ "✅ Last good item: " +++ quoted (lastGoodIndex st)
          +++ " (position " +++ show_Z (lastGoodIndex st + 1) +++ ")" ]
      else [])
  ++ (if firstBadIndex st >=? 0 then
        [ "❌ First bad item: " +++ quoted (firstBadIndex st)
          +++ " (position " +++ show_Z (firstBadIndex st + 1) +++ ")" ]
      else [])
  ++ (if (firstBadIndex st >=? 0) && (lastGoodIndex st >=? 0)
         && (firstBadIndex st =? lastGoodIndex st + 1)
      then
        [ "🔍 The issue was introduced between:"%string;
          "   " +++ quoted (lastGoodIndex st) +++ " (good) and "
          +++ quoted (firstBadIndex st) +++ " (bad)" ]
      else []).

End Loop.

End Binary.

(** What holds of the variables of the binary loop whenever its condition
    is evaluated. *)
Record BinaryInv (items : list string) (st : Binary.State) : Prop := {
  binary_lower : 0 <= Binary.left st;
  binary_upper : Binary.right st < Z.of_nat (List.length items);
  binary_order : Binary.left st <= Binary.right st + 1;
  binary_good : Binary.lastGoodIndex st = Binary.left st - 1;
  binary_bad :
    (Binary.firstBadIndex st = Binary.right st + 1 /\
     Binary.right st + 1 < Z.of_nat (List.length items)) \/
    (Binary.firstBadIndex st = -1 /\
     Binary.right st = Z.of_nat (List.length items) - 1)
}.

(** ** Sample inputs *)

Definition eight_items : list string :=
  [ "a"; "b"; "c"; "d"; "e"; "f"; "g"; "h" ]%string.

Definition four_items : list string := [ "c1"; "c2"; "c3"; "c4" ]%string.

Definition checkout_options : BisectOptions :=
  mkOptions "npm test" "commits.txt" (Some "git checkout @i"%string).

Definition placeholder_options : BisectOptions :=
  mkOptions "run-test @i" "items.txt" (Some "checkout @i"%string).

(** The user ignores the item at index 3, fails the one at index 4 and
    passes the others. *)
Definition ignore3_fail4 : Oracle :=
  fun _ i => if i =? 3 then IGNORE else if i =? 4 then FAIL else PASS.

(** The items before index [k] are good, the others bad. *)
Definition bad_from (k : Z) : Oracle :=
  fun _ i => if i <? k then PASS else FAIL.

Definition always_ignore : Oracle := fun _ _ => IGNORE.

(** The user cannot judge the item at index 3; of the others, those
    before index [k] are good and the rest bad. *)
Definition ignore3_bad_from (k : Z) : Oracle :=
  fun _ i => if i =? 3 then IGNORE else if i <? k then PASS else FAIL.

(** The answers to [confirm] when the items before index [k] are good. *)
Definition good_before (k : Z) : Binary.Oracle := fun _ i => i <? k.

Definition sample_files : Files :=
  fun name =>
    if (name =? "versions.txt")%string
    then Some (join nl [ "1.0.0"; "1.1.0"; "1.2.0"; "2.0.0" ]%string +++ nl)
    else None.

(** A final state with two ignored items between the last good and the
    first bad one. *)
Definition gap_state : State :=
  mkState 2 1 1 4 [3; 2] [(3, IGNORE); (4, FAIL); (1, PASS); (2, IGNORE)] [].

(** ** The ternary engine *)

Section Engine.
Variable options : BisectOptions.
Variable items : list string.
Variable oracle : Oracle.

(** [runCommand]: the exit status of the command only decides whether
    a warning is printed. *)
Definition runCommand (command : string) (item : option string)
    (st : State) : State :=
  let finalCommand :=
    if truthy item then replaceAll command "@i" (show_item item)
    else command in
  mkState (left st) (right st) (lastGoodIndex st) (firstBadIndex st)
    (ignoredItems st) (prompts st) (spawned st ++ [finalCommand]).

(** [confirmResult]: the verdict the user ends up entering. *)
Definition confirmResult (currentIndex : Z) (st : State)
    : TestResult * State :=
  let result := oracle (List.length (prompts st)) currentIndex in
  (result,
   mkState (left st) (right st) (lastGoodIndex st) (firstBadIndex st)
     (ignoredItems st) (prompts st ++ [(currentIndex, result)])
     (spawned st)).

(** The commands and the prompt of one pass through the inner loop. *)
Definition test_item (currentIndex : Z) (st : State) : TestResult * State :=
  let currentItem := item_at items currentIndex in
  let st :=
    if truthy (nextStateCommand options) then
      runCommand (show_item (nextStateCommand options)) currentItem st
    else st in
  let st := runCommand (testCommand options) None st in
  confirmResult currentIndex st.

Definition on_pass (currentIndex : Z) (st : State) : State :=
  mkState (currentIndex + 1) (right st) currentIndex (firstBadIndex st)
    (ignoredItems st) (prompts st) (spawned st).

Definition on_fail (currentIndex : Z) (st : State) : State :=
  mkState (left st) (currentIndex - 1) (lastGoodIndex st) currentIndex
    (ignoredItems st) (prompts st) (spawned st).

Definition on_ignore (currentIndex : Z) (st : State) : State :=
  mkState (left st) (right st) (lastGoodIndex st) (firstBadIndex st)
    (ignoredItems st ++ [currentIndex]) (prompts st) (spawned st).

(** [while (currentIndex <= right)]: the state and [currentIndex] at the
    exit of the loop. *)
Fixpoint inner_loop (fuel : nat) (st : State) (currentIndex : Z)
    : option (State * Z) :=
  if currentIndex <=? right st then
    match fuel with
    | O => None
    | S fuel' =>
      let (result, st) := test_item currentIndex st in
      match result with
      | PASS => Some (on_pass currentIndex st, currentIndex)
      | FAIL => Some (on_fail currentIndex st, currentIndex)
      | IGNORE => inner_loop fuel' (on_ignore currentIndex st) (currentIndex + 1)
      end
    end
  else Some (st, currentIndex).

Definition narrow (mid : Z) (st : State) : State :=
  mkState (left st) (mid - 1) (lastGoodIndex st) (firstBadIndex st)
    (ignoredItems st) (prompts st) (spawned st).

(** The body of [while (left <= right)]. *)
Definition outer_body (st : State) : option State :=
  let mid := (left st + right st) / 2 in
  match inner_loop (Z.to_nat (right st - mid + 1)) st mid with
  | None => None
  | Some (st, currentIndex) =>
    Some (if currentIndex >? right st then narrow mid st else st)
  end.

(** [while (left <= right)]: one unit of fuel per pass. *)
Fixpoint bisect_loop (fuel : nat) (st : State) : option State :=
  if left st <=? right st then
    match fuel with
    | O => None
    | S fuel' =>
      match outer_body st with
      | None => None
      | Some st => bisect_loop fuel' st
      end
    end
  else Some st.

Definition initial : State :=
  mkState 0 (Z.of_nat (List.length items) - 1) (-1) (-1) [] [] [].

(** *** The same loops, one control point at a time

    The places of the search loop where control can be, with the values
    of the variables there: before the condition of the outer loop,
    before the condition of the inner loop, after the inner loop (before
    the check [currentIndex > right]), and after the outer loop. *)
Inductive Point :=
| OuterTest (st : State)
| InnerTest (mid : Z) (st : State) (currentIndex : Z)
| InnerDone (mid : Z) (st : State) (currentIndex : Z)
| LoopDone (st : State).

Definition vars (p : Point) : State :=
  match p with
  | OuterTest st | InnerTest _ st _ | InnerDone _ st _ | LoopDone st => st
  end.

(** From one control point to the next. *)
Definition step (p : Point) : Point :=
  match p with
  | OuterTest st =>
    if left st <=? right st then
      let mid := (left st + right st) / 2 in
      InnerTest mid st mid
    else LoopDone st
  | InnerTest mid st currentIndex =>
    if currentIndex <=? right st then
      let (result, st) := test_item currentIndex st in
      match result with
      | PASS => InnerDone mid (on_pass currentIndex st) currentIndex
      | FAIL => InnerDone mid (on_fail currentIndex st) currentIndex
      | IGNORE => InnerTest mid (on_ignore currentIndex st) (currentIndex + 1)
      end
    else InnerDone mid st currentIndex
  | InnerDone mid st currentIndex =>
    OuterTest (if currentIndex >? right st then narrow mid st else st)
  | LoopDone st => LoopDone st
  end.

Fixpoint steps (n : nat) (p : Point) : Point :=
  match n with
  | O => p
  | S n' => steps n' (step p)
  end.

Section Report.
Variable st : State.

Definition quoted (i : Z) : string :=
  dq +++ show_item (item_at items i) +++ dq.

Definition report_header : list string :=
  [ nl +++ string_repeat "=" 60; "🎉 Bisect complete!"%string ].

Definition report_ignored : list string :=
  if (0 <? List.length (ignoredItems st))%nat then
    [ "⏭️  Ignored " +++ show_Z (Z.of_nat (List.length (ignoredItems st)))
      +++ " items: "
      +++ join ", "
            (map (fun i => quoted i +++ " (" +++ show_Z (i + 1) +++ ")")
               (ignoredItems st)) ]
  else [].

Definition report_good : list string :=
  if lastGoodIndex st >=? 0 then
    [ "✅ Last good item: " +++ quoted (lastGoodIndex st)
      +++ " (position " +++ show_Z (lastGoodIndex st + 1) +++ ")" ]
  else [ "✅ No good items found"%string ].

Definition report_bad : list string :=
  if firstBadIndex st >=? 0 then
    [ "❌ First bad item: " +++ quoted (firstBadIndex st)
      +++ " (position " +++ show_Z (firstBadIndex st + 1) +++ ")" ]
  else [ "❌ No bad items found"%string ].

(** One entry of [itemsInBetween]. *)
Definition annotate (i : Z) : string :=
  if existsb (Z.eqb i) (ignoredItems st) then quoted i +++ " (ignored)"
  else quoted i +++ " (untested)".

(** [for (let i = lastGoodIndex + 1; i < firstBadIndex; i++)]: the list
    [itemsInBetween] at the exit of the loop, entered at [i] with the
    entries pushed so far.  [fuel] bounds the number of passes; the loop
    is given more than the passes it makes ([itemsInBetween_spec]). *)
Fixpoint between_loop (fuel : nat) (i : Z) (pushed : list string)
    : list string :=
  match fuel with
  | O => pushed
  | S fuel' =>
    if i <? firstBadIndex st then
      between_loop fuel' (i + 1) (pushed ++ [annotate i])
    else pushed
  end.

Definition itemsInBetween : list string :=
  between_loop (Z.to_nat (firstBadIndex st - lastGoodIndex st))
    (lastGoodIndex st + 1) [].

Definition report_boundary : list string :=
  if (firstBadIndex st >=? 0) && (lastGoodIndex st >=? 0) then
    let gap := firstBadIndex st - lastGoodIndex st in
    if gap =? 1 then
      [ "🔍 The issue was introduced between:"%string;
        "   " +++ quoted (lastGoodIndex st) +++ " (good) and "
        +++ quoted (firstBadIndex st) +++ " (bad)" ]
    else if gap >? 1 then
      [ "🔍 The issue was introduced somewhere in this range:"%string;
        "   After: " +++ quoted (lastGoodIndex st) +++ " (good)" ]
      ++ (if (0 <? List.length itemsInBetween)%nat then
            [ "   Between: " +++ join ", " itemsInBetween ]
          else [])
      ++ [ "   Before: " +++ quoted (firstBadIndex st) +++ " (bad)" ]
      ++ (if existsb (fun item => includes item "(untested)") itemsInBetween
          then [ "💡 Consider testing the untested items to narrow down further."%string ]
          else [])
    else []
  else if (lastGoodIndex st >=? 0) && (firstBadIndex st =? -1) then
    [ "🔍 All tested items after " +++ quoted (lastGoodIndex st)
      +++ " were either ignored or not tested." ]
  else if (lastGoodIndex st =? -1) && (firstBadIndex st >=? 0) then
    [ "🔍 All tested items before " +++ quoted (firstBadIndex st)
      +++ " were either ignored or not tested." ]
  else [].

(** The lines printed after the search loop, one per [console.log]. *)
Definition report : list string :=
  report_header ++ report_ignored ++ report_good ++ report_bad
  ++ report_boundary.

End Report.

(** The run of [bisect] on the items read from the file: it exits with
    status 1 on an empty list, and otherwise ends with the final state and
    the report.  The lines printed before and inside the search loop are
    not modelled. *)
Inductive Outcome :=
| Exited (code : Z)
| Completed (st : State) (lines : list string).

Definition bisect (fuel : nat) : option Outcome :=
  if (List.length items =? 0)%nat then Some (Exited 1)
  else
    match bisect_loop fuel initial with
    | None => None
    | Some st => Some (Completed st (report st))
    end.

(** ** Notions used in the statements *)

Definition midpoint (st : State) : Z := (left st + right st) / 2.

Definition ignored (i : Z) : Z * TestResult := (i, IGNORE).

(** The value a variable that is assigned the index of every test with
    verdict [v] holds after the tests [t], starting from [-1]. *)
Definition record_verdict (v : TestResult) (acc : Z) (e : Z * TestResult) : Z :=
  if TestResult_eqb (snd e) v then fst e else acc.

Definition last_index (v : TestResult) (t : list (Z * TestResult)) : Z :=
  fold_left (record_verdict v) t (-1).

Definition is_ignore (e : Z * TestResult) : bool := TestResult_eqb (snd e) IGNORE.

(** The commands handed to the shell for one test of the item at
    index [i]. *)
Definition commands_for (i : Z) : list string :=
  (if truthy (nextStateCommand options) then
     [ if truthy (item_at items i) then
         replaceAll (show_item (nextStateCommand options)) "@i"
           (show_item (item_at items i))
       else show_item (nextStateCommand options) ]
   else [])
  ++ [ testCommand options ].

(** The world after one test of index [i] with verdict [r]. *)
Definition log_test (i : Z) (r : TestResult) (st : State) : State :=
  mkState (left st) (right st) (lastGoodIndex st) (firstBadIndex st)
    (ignoredItems st) (prompts st ++ [(i, r)])
    (spawned st ++ commands_for i).

(** The state after the items at [lo], ..., [hi - 1] were tested and
    ignored, one after the other. *)
Definition after_sweep (st : State) (lo hi : Z) : State :=
  mkState (left st) (right st) (lastGoodIndex st) (firstBadIndex st)
    (ignoredItems st ++ zrange lo hi)
    (prompts st ++ map ignored (zrange lo hi))
    (spawned st ++ flat_map commands_for (zrange lo hi)).

(** The oracle ignores the items at [lo], ..., [hi - 1] when they are
    shown in this order from state [st] on. *)
Definition sweeps (st : State) (lo hi : Z) : Prop :=
  forall i, lo <= i < hi ->
    oracle (List.length (prompts st) + Z.to_nat (i - lo))%nat i = IGNORE.

Definition answer (st : State) (lo c : Z) : TestResult :=
  oracle (List.length (prompts st) + Z.to_nat (c - lo))%nat c.

(** One pass through the outer loop, by what ended the inner loop. *)
Inductive iteration (st : State) : State -> Prop :=
| iteration_pass c :
    midpoint st <= c <= right st ->
    sweeps st (midpoint st) c ->
    answer st (midpoint st) c = PASS ->
    iteration st
      (on_pass c (log_test c PASS (after_sweep st (midpoint st) c)))
| iteration_fail c :
    midpoint st <= c <= right st ->
    sweeps st (midpoint st) c ->
    answer st (midpoint st) c = FAIL ->
    iteration st
      (narrow (midpoint st)
         (on_fail c (log_test c FAIL (after_sweep st (midpoint st) c))))
| iteration_ignored :
    sweeps st (midpoint st) (right st + 1) ->
    iteration st
      (narrow (midpoint st) (after_sweep st (midpoint st) (right st + 1))).

(** The binary oracle that answers as [oracle] does, [PASS] being a
    confirmation. *)
Definition is_pass (r : TestResult) : bool := TestResult_eqb r PASS.

Definition as_binary (oracle : Oracle) : Binary.Oracle :=
  fun n i => is_pass (oracle n i).

Definition tested (st : State) : list Z := map fst (prompts st).

(** The ternary state [st] and the binary state [b] hold the same
    variables and went through the same tests, a pass being a
    confirmation and a failure a denial, and nothing was ignored. *)
Definition agree (st : State) (b : Binary.State) : Prop :=
  left st = Binary.left b /\ right st = Binary.right b /\
  lastGoodIndex st = Binary.lastGoodIndex b /\
  firstBadIndex st = Binary.firstBadIndex b /\
  map (fun e => (fst e, is_pass (snd e))) (prompts st) = Binary.prompts b /\
  ignoredItems st = [].

(** The annotation the report owes the index [i] between the last good
    and the first bad item. *)
Definition annotation (st : State) (i : Z) : string :=
  if in_dec Z.eq_dec i (ignoredItems st) then " (ignored)" else " (untested)".

(** The number of tests of a search without [IGNORE] in a range of
    [size] items is at most this. *)
Definition tests_bound (size : Z) : Z :=
  if size <=? 0 then 0 else Z.log2 size + 1.

(** Later tests that pass are at higher indices, later tests that fail
    at lower ones. *)
Definition rising (a b : Z * TestResult) : Prop :=
  snd a = PASS -> snd b = PASS -> fst a < fst b.

Definition falling (a b : Z * TestResult) : Prop :=
  snd a = FAIL -> snd b = FAIL -> fst b < fst a.

(** What holds of the variables at every control point: the last good
    index is below the range and the first bad index, once set, above
    it. *)
Definition bounded (st : State) : Prop :=
  0 <= left st /\ left st <= right st + 1 /\
  -1 <= lastGoodIndex st < left st /\
  (0 <= firstBadIndex st -> right st < firstBadIndex st).

Definition point_ok (p : Point) : Prop :=
  match p with
  | OuterTest st | LoopDone st => bounded st
  | InnerTest mid st currentIndex =>
    bounded st /\ left st <= mid <= currentIndex /\
    currentIndex <= right st + 1
  | InnerDone mid st currentIndex =>
    bounded st /\ (currentIndex > right st -> left st <= mid <= right st + 1)
  end.

(** What holds of the state each time the condition of the outer loop
    is evaluated. *)
Record Inv (st : State) : Prop := mkInv {
  inv_left : 0 <= left st;
  inv_right : right st < Z.of_nat (List.length items);
  inv_order : left st <= right st + 1;
  inv_tested : forall i v, In (i, v) (prompts st) ->
    0 <= i < Z.of_nat (List.length items) /\ (i < left st \/ right st < i);
  inv_pass : forall i, In (i, PASS) (prompts st) -> i < left st;
  inv_fail : forall i, In (i, FAIL) (prompts st) -> right st < i;
  inv_nodup : NoDup (tested st);
  inv_good : lastGoodIndex st = last_index PASS (prompts st);
  inv_bad : firstBadIndex st = last_index FAIL (prompts st);
  inv_ignored : ignoredItems st = map fst (filter is_ignore (prompts st));
  inv_rising : ForallOrdPairs rising (prompts st);
  inv_falling : ForallOrdPairs falling (prompts st);
  inv_spawned : spawned st = flat_map commands_for (tested st)
}.

(** The end of the part above the range that is known to be bad or
    ignored: the first bad index, or the number of items while no item
    has failed. *)
Definition ceiling (st : State) : Z :=
  if firstBadIndex st >=? 0 then firstBadIndex st
  else Z.of_nat (List.length items).

(** What also holds each time the condition of the outer loop is
    evaluated: the last good index is the one just below the range, the
    items above the range and below the ceiling were all ignored, and
    every verdict recorded is an answer of the oracle. *)
Record Settled (st : State) : Prop := mkSettled {
  settled_good : lastGoodIndex st = left st - 1;
  settled_above : forall i,
    right st < i < ceiling st -> In i (ignoredItems st);
  settled_answers : forall i v,
    In (i, v) (prompts st) -> exists n, v = oracle n i
}.

(** ** Ranges *)

Lemma zrange_nil lo hi : hi <= lo -> zrange lo hi = [].
Proof.
  intros H. unfold zrange.
  replace (Z.to_nat (hi - lo)) with O by lia. reflexivity.
Qed.

Lemma zrange_cons lo hi : lo < hi -> zrange lo hi = lo :: zrange (lo + 1) hi.
Proof.
  intros H. unfold zrange.
  replace (Z.to_nat (hi - lo)) with (S (Z.to_nat (hi - (lo + 1)))) by lia.
  cbn [seq map]. f_equal; [lia|].
  rewrite <- seq_shift, map_map.
  apply map_ext. intros k. lia.
Qed.

Lemma in_zrange lo hi i : In i (zrange lo hi) <-> lo <= i < hi.
Proof.
  unfold zrange. rewrite in_map_iff. split.
  - intros (k & <- & Hk). apply in_seq in Hk. lia.
  - intros H. exists (Z.to_nat (i - lo)). split; [lia|].
    apply in_seq. lia.
Qed.

Lemma zrange_length lo hi : List.length (zrange lo hi) = Z.to_nat (hi - lo).
Proof. unfold zrange. now rewrite length_map, length_seq. Qed.

Lemma zrange_app lo mid hi :
  lo <= mid <= hi -> zrange lo hi = zrange lo mid ++ zrange mid hi.
Proof.
  remember (Z.to_nat (mid - lo)) as n eqn:Hn.
  revert lo Hn. induction n as [|n IH]; intros lo Hn H.
  - rewrite (zrange_nil lo mid) by lia.
    replace mid with lo by lia. reflexivity.
  - rewrite (zrange_cons lo hi), (zrange_cons lo mid) by lia.
    cbn [app]. f_equal. apply IH; lia.
Qed.

Lemma NoDup_zrange lo hi : NoDup (zrange lo hi).
Proof.
  remember (Z.to_nat (hi - lo)) as n eqn:Hn.
  revert lo Hn. induction n as [|n IH]; intros lo Hn.
  - rewrite zrange_nil by lia. constructor.
  - rewrite zrange_cons by lia. constructor.
    + rewrite in_zrange. lia.
    + apply IH. lia.
Qed.

(** ** One pass through the loops *)

Lemma mid_bounds l r :
  l <= r ->
  l <= (l + r) / 2 <= r /\ 2 * ((l + r) / 2) <= l + r <= 2 * ((l + r) / 2) + 1.
Proof.
  intros H.
  pose proof (Z.div_mod (l + r) 2 ltac:(lia)) as E.
  pose proof (Z.mod_pos_bound (l + r) 2 ltac:(lia)) as B.
  lia.
Qed.

Lemma test_item_eq currentIndex st :
  test_item currentIndex st =
  (oracle (List.length (prompts st)) currentIndex,
   log_test currentIndex (oracle (List.length (prompts st)) currentIndex) st).
Proof.
  unfold test_item, log_test, commands_for, runCommand,
    confirmResult.
  destruct (truthy (nextStateCommand options)); cbn;
    now rewrite <- ?app_assoc.
Qed.

Lemma after_sweep_nil st c : after_sweep st c c = st.
Proof.
  unfold after_sweep. rewrite zrange_nil by lia. cbn.
  rewrite !app_nil_r. now destruct st.
Qed.

Lemma after_sweep_step st c hi :
  c < hi ->
  after_sweep (on_ignore c (log_test c IGNORE st)) (c + 1) hi =
  after_sweep st c hi.
Proof.
  intros H. unfold after_sweep, on_ignore, log_test.
  rewrite (zrange_cons c hi) by lia. cbn.
  now rewrite <- !app_assoc.
Qed.

Lemma sweeps_step st c hi :
  oracle (List.length (prompts st)) c = IGNORE ->
  sweeps (on_ignore c (log_test c IGNORE st)) (c + 1) hi ->
  sweeps st c hi.
Proof.
  intros H0 H i Hi. destruct (Z.eq_dec i c) as [->|Hne].
  - replace (Z.to_nat (c - c)) with O by lia. now rewrite Nat.add_0_r.
  - specialize (H i ltac:(lia)). cbn in H. rewrite length_app in H.
    cbn in H. rewrite <- H. f_equal. lia.
Qed.

Lemma answer_step st c c' :
  c < c' ->
  answer (on_ignore c (log_test c IGNORE st)) (c + 1) c' = answer st c c'.
Proof.
  intros H. unfold answer. cbn. rewrite length_app. cbn.
  f_equal. lia.
Qed.

(** The inner loop from [cur] on: it ends at some [c], after ignoring
    the items before [c], either at the end of the range or on the
    first verdict that is not [IGNORE]. *)
Lemma inner_loop_spec fuel : forall st cur,
  cur <= right st + 1 ->
  right st + 1 - cur <= Z.of_nat fuel ->
  exists c, cur <= c <= right st + 1 /\ sweeps st cur c /\
    ((c = right st + 1 /\
      inner_loop fuel st cur = Some (after_sweep st cur c, c))
     \/ (c <= right st /\ answer st cur c = PASS /\
         inner_loop fuel st cur =
         Some (on_pass c (log_test c PASS (after_sweep st cur c)), c))
     \/ (c <= right st /\ answer st cur c = FAIL /\
         inner_loop fuel st cur =
         Some (on_fail c (log_test c FAIL (after_sweep st cur c)), c))).
Proof.
  assert (Hstop : forall fuel st cur, cur = right st + 1 ->
    exists c, cur <= c <= right st + 1 /\ sweeps st cur c /\
      ((c = right st + 1 /\
        inner_loop fuel st cur = Some (after_sweep st cur c, c)) \/
       (c <= right st /\ answer st cur c = PASS /\
        inner_loop fuel st cur =
        Some (on_pass c (log_test c PASS (after_sweep st cur c)), c)) \/
       (c <= right st /\ answer st cur c = FAIL /\
        inner_loop fuel st cur =
        Some (on_fail c (log_test c FAIL (after_sweep st cur c)), c)))).
  { intros f st cur Hc. exists cur. split; [lia|]. split.
    - intros i Hi. lia.
    - left. split; [exact Hc|]. rewrite after_sweep_nil.
      destruct f; cbn; destruct (cur <=? right st) eqn:E;
        try reflexivity; lia. }
  induction fuel as [|fuel IH]; intros st cur Hle Hfuel.
  - apply Hstop. lia.
  - destruct (Z.eq_dec cur (right st + 1)) as [Heq|Hne];
      [now apply Hstop|].
    cbn [inner_loop].
    destruct (cur <=? right st) eqn:E; [|lia].
    rewrite test_item_eq.
    destruct (oracle (List.length (prompts st)) cur) eqn:Hr.
    + exists cur. split; [lia|]. split; [intros i Hi; lia|].
      right. left. rewrite after_sweep_nil. unfold answer.
      replace (Z.to_nat (cur - cur)) with O by lia.
      rewrite Nat.add_0_r. auto with zarith.
    + exists cur. split; [lia|]. split; [intros i Hi; lia|].
      right. right. rewrite after_sweep_nil. unfold answer.
      replace (Z.to_nat (cur - cur)) with O by lia.
      rewrite Nat.add_0_r. auto with zarith.
    + destruct (IH (on_ignore cur (log_test cur IGNORE st)) (cur + 1))
        as (c & Hc & Hsw & Hcases); cbn; try lia.
      cbn in Hc, Hcases.
      exists c. split; [lia|]. split; [now apply sweeps_step|].
      rewrite after_sweep_step, answer_step in Hcases by lia.
      exact Hcases.
Qed.

(** Every pass through the outer loop returns, and is one of the
    three kinds of [iteration]. *)
Lemma outer_body_spec st :
  left st <= right st ->
  exists st', outer_body st = Some st' /\ iteration st st'.
Proof.
  intros H. pose proof (mid_bounds _ _ H) as [Hm _].
  fold (midpoint st) in Hm.
  destruct (inner_loop_spec (Z.to_nat (right st - midpoint st + 1))
              st (midpoint st)) as (c & Hc & Hsw & Hcases); try lia.
  unfold outer_body. fold (midpoint st).
  destruct Hcases as [(-> & E)|[(Hle & Ha & E)|(Hle & Ha & E)]];
    rewrite E; cbn [right on_pass on_fail log_test
                      after_sweep].
  - destruct (right st + 1 >? right st) eqn:G; [|lia].
    eexists. split; [reflexivity|]. now apply iteration_ignored.
  - destruct (c >? right st) eqn:G; [lia|].
    eexists. split; [reflexivity|]. apply iteration_pass; auto; lia.
  - destruct (c >? c - 1) eqn:G; [|lia].
    eexists. split; [reflexivity|]. apply iteration_fail; auto; lia.
Qed.

(** What one pass does to the range. *)
Lemma iteration_range st st' :
  left st <= right st -> iteration st st' ->
  left st <= left st' /\ right st' <= right st /\
  left st' <= right st' + 1 /\
  right st' - left st' < right st - left st.
Proof.
  intros H It. pose proof (mid_bounds _ _ H) as [Hm _].
  fold (midpoint st) in Hm.
  destruct It; cbn; lia.
Qed.

Lemma bisect_loop_terminates fuel : forall st,
  right st - left st + 1 <= Z.of_nat fuel ->
  exists st', bisect_loop fuel st = Some st'.
Proof.
  induction fuel as [|fuel IH]; intros st H; cbn.
  - destruct (left st <=? right st) eqn:E; [lia|]. now exists st.
  - destruct (left st <=? right st) eqn:E; [|now exists st].
    destruct (outer_body_spec st ltac:(lia)) as (st' & -> & It).
    apply IH. pose proof (iteration_range st st' ltac:(lia) It). lia.
Qed.

(** The rule of the outer loop: what every pass preserves holds at the
    exit. *)
Lemma bisect_loop_invariant (P : State -> Prop) :
  (forall st st', P st -> left st <= right st -> iteration st st' -> P st') ->
  forall fuel st st',
    P st -> bisect_loop fuel st = Some st' -> P st' /\ right st' < left st'.
Proof.
  intros Hstep. induction fuel as [|fuel IH]; intros st st' HP; cbn;
    destruct (left st <=? right st) eqn:E; try discriminate;
    try (intros [= <-]; split; [assumption|lia]).
  destruct (outer_body_spec st ltac:(lia)) as (st1 & -> & It).
  apply IH. apply (Hstep st st1); auto. lia.
Qed.

(** ** Lists of tests *)

Lemma in_ignored i v zs : In (i, v) (map ignored zs) <-> v = IGNORE /\ In i zs.
Proof.
  rewrite in_map_iff. unfold ignored. split.
  - intros (j & [= -> ->] & Hj). auto.
  - intros (-> & Hi). now exists i.
Qed.

Lemma map_fst_ignored zs : map fst (map ignored zs) = zs.
Proof. rewrite map_map. cbn. apply map_id. Qed.

Lemma filter_ignored zs : filter is_ignore (map ignored zs) = map ignored zs.
Proof. induction zs as [|z zs IH]; cbn; [reflexivity|now rewrite IH]. Qed.

Lemma fold_ignored v zs acc :
  v <> IGNORE -> fold_left (record_verdict v) (map ignored zs) acc = acc.
Proof.
  intros Hv. revert acc.
  induction zs as [|z zs IH]; intros acc; cbn; [reflexivity|].
  rewrite IH. unfold record_verdict. cbn. now destruct v.
Qed.

Section OrderedPairs.
Variable A : Type.
Variable R : A -> A -> Prop.

Lemma FOP_app l1 l2 :
  ForallOrdPairs R l1 -> ForallOrdPairs R l2 ->
  (forall a b, In a l1 -> In b l2 -> R a b) ->
  ForallOrdPairs R (l1 ++ l2).
Proof.
  intros H1 H2 H. induction H1 as [|a l Ha Hl IH]; [exact H2|].
  cbn. constructor.
  - apply Forall_app. split; [exact Ha|].
    apply Forall_forall. intros b Hb. apply H; [now left|exact Hb].
  - apply IH. intros x y Hx Hy. apply H; [now right|exact Hy].
Qed.

Lemma FOP_app_inv l1 l2 :
  ForallOrdPairs R (l1 ++ l2) ->
  ForallOrdPairs R l1 /\ ForallOrdPairs R l2 /\
  forall a b, In a l1 -> In b l2 -> R a b.
Proof.
  induction l1 as [|x l1 IH]; cbn; intros H.
  - split; [constructor|]. split; [exact H|]. intros a b [].
  - inversion H as [|? ? Hx Hl]; subst.
    destruct (IH Hl) as (H1 & H2 & Hc).
    rewrite Forall_app in Hx. destruct Hx as [Hx1 Hx2].
    split; [now constructor|]. split; [exact H2|].
    intros a b [<-|Ha] Hb.
    + rewrite Forall_forall in Hx2. now apply Hx2.
    + now apply Hc.
Qed.

Lemma FOP_split l1 a l2 b l3 :
  ForallOrdPairs R (l1 ++ a :: l2 ++ b :: l3) -> R a b.
Proof.
  intros H. apply FOP_app_inv in H. destruct H as (_ & H & _).
  inversion H as [|? ? Ha _]; subst.
  rewrite Forall_forall in Ha. apply Ha, in_elt.
Qed.

Lemma FOP_trivial l :
  (forall a b, In a l -> R a b) -> ForallOrdPairs R l.
Proof.
  intros H. induction l as [|x l IH]; constructor.
  - apply Forall_forall. intros b _. apply H. now left.
  - apply IH. intros a b Ha. apply H. now right.
Qed.

End OrderedPairs.

(** ** The invariant of the outer loop *)

Ltac members :=
  repeat match goal with
  | H : In _ (_ ++ _) |- _ => apply in_app_iff in H; destruct H as [H|H]
  | H : In (_, _) (map ignored _) |- _ =>
    apply in_ignored in H; destruct H as [? H]
  | H : In _ (zrange _ _) |- _ => apply in_zrange in H
  | H : In _ [_] |- _ => destruct H as [H|[]]
  | H : In _ [] |- _ => destruct H
  | H : (_, _) = (_, _) |- _ => inversion H; subst; clear H
  end.

Lemma Inv_initial : Inv initial.
Proof.
  constructor; cbn; try lia; try reflexivity; try constructor;
    intros; contradiction.
Qed.

Lemma FOP_ignored (R : Z * TestResult -> Z * TestResult -> Prop) zs :
  (forall a b, snd a = IGNORE -> R a b) ->
  ForallOrdPairs R (map ignored zs).
Proof.
  intros HR. apply FOP_trivial. intros [i v] b Hi.
  apply in_ignored in Hi. apply HR. now destruct Hi.
Qed.

Lemma FOP_new_tests (R : Z * TestResult -> Z * TestResult -> Prop) zs e :
  (forall a b, snd a = IGNORE -> R a b) ->
  ForallOrdPairs R (map ignored zs ++ [e]).
Proof.
  intros HR. apply FOP_app.
  - now apply FOP_ignored.
  - constructor; constructor.
  - intros [i v] b Hi _. apply in_ignored in Hi. apply HR. now destruct Hi.
Qed.

Lemma iteration_preserves st st' :
  Inv st -> left st <= right st ->
  iteration st st' -> Inv st'.
Proof.
  intros I H It. pose proof (mid_bounds _ _ H) as [Hm _].
  fold (midpoint st) in Hm.
  pose proof (inv_left _ I) as Il. pose proof (inv_right _ I) as Ir.
  pose proof (inv_tested _ I) as It0.
  pose proof (inv_pass _ I) as Ip. pose proof (inv_fail _ I) as If.
  assert (Hr : forall a b : Z * TestResult, snd a = IGNORE -> rising a b)
    by (unfold rising; intros; congruence).
  assert (Hf : forall a b : Z * TestResult, snd a = IGNORE -> falling a b)
    by (unfold falling; intros; congruence).
  destruct It as [c Hc Hsw Ha|c Hc Hsw Ha|Hsw]; constructor;
    unfold tested; cbn; try lia.
  all: try (intros i v Hin; members;
            try (apply It0 in Hin); try discriminate; lia).
  all: try (intros i Hin; members;
            try (apply Ip in Hin); try (apply If in Hin);
            try discriminate; lia).
  all: try (unfold last_index;
            rewrite ?fold_left_app, ?fold_ignored by discriminate;
            cbn;
            solve [ apply (inv_good _ I) | apply (inv_bad _ I) | reflexivity ]).
  all: try (rewrite ?filter_app, ?map_app, ?filter_ignored, ?map_fst_ignored;
            cbn; rewrite ?app_nil_r; f_equal; apply (inv_ignored _ I)).
  all: try (rewrite ?map_app, ?flat_map_app, ?map_fst_ignored; cbn;
            rewrite ?app_nil_r; rewrite (inv_spawned _ I); reflexivity).
  all: try (rewrite ?map_app, ?map_fst_ignored, <- ?app_assoc; cbn [map fst];
            apply NoDup_app;
            [ apply (inv_nodup _ I)
            | first [ apply NoDup_zrange
                    | apply NoDup_app;
                      [ apply NoDup_zrange
                      | repeat constructor; intros []
                      | intros a Hin [<-|[]]; apply in_zrange in Hin; lia ] ]
            | intros a Hin Hin'; apply in_map_iff in Hin;
              destruct Hin as ([i v] & <- & Hin); cbn in Hin';
              members; apply It0 in Hin; lia ]).
  all: rewrite <- ?app_assoc; apply FOP_app;
    [ first [apply (inv_rising _ I) | apply (inv_falling _ I)]
    | first [apply FOP_new_tests | apply FOP_ignored]; assumption
    | intros [i v] [j w] Hi Hj; unfold rising, falling; cbn; intros -> ->;
      members; try discriminate;
      try (apply Ip in Hi); try (apply If in Hi); lia ].
Qed.

(** ** Complete runs *)

(** The search loop returns within one pass per item, in a state where
    the invariant holds and the range is empty. *)
Lemma run_completes :
  exists fin,
    bisect_loop (List.length items) initial = Some fin /\
    Inv fin /\ right fin < left fin.
Proof.
  destruct (bisect_loop_terminates (List.length items) initial) as [fin E];
    [cbn; lia|].
  exists fin. split; [exact E|].
  apply (bisect_loop_invariant Inv iteration_preserves _ _ _ Inv_initial E).
Qed.

(** ** The run, one control point at a time *)

Lemma steps_add n m p : steps (n + m) p = steps m (steps n p).
Proof. revert p. induction n as [|n IH]; intros p; cbn; auto. Qed.

Lemma steps_LoopDone n st : steps n (LoopDone st) = LoopDone st.
Proof. induction n as [|n IH]; cbn; auto. Qed.

(** The loops and the steps are the same run. *)
Lemma inner_loop_steps mid fuel : forall st cur st' c,
  inner_loop fuel st cur = Some (st', c) ->
  exists n, steps n (InnerTest mid st cur) = InnerDone mid st' c.
Proof.
  induction fuel as [|fuel IH]; intros st cur st' c; cbn [inner_loop];
    destruct (cur <=? right st) eqn:E; try discriminate.
  1,3: intros [= <- <-]; exists 1%nat; cbn [steps step]; now rewrite E.
  destruct (test_item cur st) as [result st1] eqn:Et.
  destruct result.
  - intros [= <- <-]. exists 1%nat. cbn [steps step]. now rewrite E, Et.
  - intros [= <- <-]. exists 1%nat. cbn [steps step]. now rewrite E, Et.
  - intros H. destruct (IH _ _ _ _ H) as [n Hn].
    exists (S n). cbn [steps step]. now rewrite E, Et.
Qed.

Lemma bisect_loop_steps fuel : forall st fin,
  bisect_loop fuel st = Some fin ->
  exists n, steps n (OuterTest st) = LoopDone fin.
Proof.
  induction fuel as [|fuel IH]; intros st fin; cbn [bisect_loop];
    destruct (left st <=? right st) eqn:E; try discriminate.
  1,3: intros [= <-]; exists 1%nat; cbn [steps step]; now rewrite E.
  unfold outer_body.
  destruct (inner_loop (Z.to_nat (right st - (left st + right st) / 2 + 1))
              st ((left st + right st) / 2)) as [[st1 c]|] eqn:Ei;
    [|discriminate].
  intros H. destruct (IH _ _ H) as [n Hn].
  destruct (inner_loop_steps ((left st + right st) / 2) _ _ _ _ _ Ei)
    as [k Hk].
  exists (1 + (k + (1 + n)))%nat.
  rewrite steps_add. cbn [steps step Nat.add]. rewrite E.
  rewrite steps_add, Hk. exact Hn.
Qed.

Lemma point_ok_step p : point_ok p -> point_ok (step p).
Proof.
  destruct p as [st|mid st cur|mid st cur|st]; cbn [step point_ok].
  - intros Hb. destruct (left st <=? right st) eqn:E; [|exact Hb].
    cbn. unfold bounded in *.
    pose proof (mid_bounds (left st) (right st) ltac:(lia)). lia.
  - intros (Hb & Hm & Hc). destruct (cur <=? right st) eqn:E;
      [|cbn; unfold bounded in *; lia].
    rewrite test_item_eq.
    destruct (oracle (List.length (prompts st)) cur);
      cbn; unfold bounded in *; cbn; lia.
  - intros (Hb & Hn). destruct (cur >? right st) eqn:E;
      cbn; unfold bounded in *; cbn; lia.
  - auto.
Qed.

Lemma point_ok_steps n : point_ok (steps n (OuterTest initial)).
Proof.
  assert (H : forall p, point_ok p -> point_ok (steps n p)).
  { induction n as [|n IH]; intros p Hp; cbn; auto using point_ok_step. }
  apply H. cbn. unfold bounded. cbn. lia.
Qed.

(** One step never lowers [lastGoodIndex] and, once [firstBadIndex] is
    set, never raises or unsets it. *)
Lemma step_monotone p :
  point_ok p ->
  lastGoodIndex (vars p) <= lastGoodIndex (vars (step p)) /\
  (0 <= firstBadIndex (vars p) ->
   0 <= firstBadIndex (vars (step p)) <= firstBadIndex (vars p)).
Proof.
  destruct p as [st|mid st cur|mid st cur|st]; cbn [step point_ok vars];
    unfold bounded.
  - intros Hb. destruct (left st <=? right st); cbn; lia.
  - intros (Hb & Hm & Hc). destruct (cur <=? right st) eqn:E; [|cbn; lia].
    rewrite test_item_eq.
    destruct (oracle (List.length (prompts st)) cur); cbn; lia.
  - intros (Hb & Hn). destruct (cur >? right st); cbn; lia.
  - lia.
Qed.

Lemma steps_monotone m : forall p,
  point_ok p ->
  lastGoodIndex (vars p) <= lastGoodIndex (vars (steps m p)) /\
  (0 <= firstBadIndex (vars p) ->
   0 <= firstBadIndex (vars (steps m p)) <= firstBadIndex (vars p)).
Proof.
  induction m as [|m IH]; intros p Hp; cbn; [lia|].
  pose proof (step_monotone p Hp).
  pose proof (IH (step p) (point_ok_step p Hp)). lia.
Qed.

(** The tests of one pass through the outer loop are those of the
    indices from the midpoint up to some [c] of the range, and none of
    them is in the range the pass leaves. *)
Lemma iteration_new_tests st st' :
  left st <= right st -> iteration st st' ->
  exists c new,
    left st <= midpoint st <= c /\ c <= right st /\
    prompts st' = prompts st ++ new /\
    map fst new = zrange (midpoint st) (c + 1) /\
    forall i, midpoint st <= i <= c -> i < left st' \/ right st' < i.
Proof.
  intros H It. pose proof (mid_bounds _ _ H) as [Hm _].
  fold (midpoint st) in Hm.
  assert (Hz : forall c, midpoint st <= c ->
            zrange (midpoint st) (c + 1) = zrange (midpoint st) c ++ [c]).
  { intros c Hc. rewrite (zrange_app (midpoint st) c (c + 1)) by lia.
    rewrite (zrange_cons c (c + 1)), (zrange_nil (c + 1)) by lia.
    reflexivity. }
  destruct It as [c Hc Hsw Ha|c Hc Hsw Ha|Hsw]; cbn.
  - exists c, (map ignored (zrange (midpoint st) c) ++ [(c, PASS)]).
    rewrite app_assoc, map_app, map_fst_ignored, Hz by lia.
    repeat split; auto; lia.
  - exists c, (map ignored (zrange (midpoint st) c) ++ [(c, FAIL)]).
    rewrite app_assoc, map_app, map_fst_ignored, Hz by lia.
    repeat split; auto; lia.
  - exists (right st), (map ignored (zrange (midpoint st) (right st + 1))).
    rewrite map_fst_ignored. repeat split; auto; lia.
Qed.

(** ** Runs without [IGNORE] *)

Lemma tests_bound_halves size size' :
  1 <= size -> 2 * size' <= size -> 1 + tests_bound size' <= tests_bound size.
Proof.
  intros H1 H2. unfold tests_bound.
  destruct (size <=? 0) eqn:E; [lia|].
  destruct (size' <=? 0) eqn:E'.
  - pose proof (Z.log2_nonneg size). lia.
  - pose proof (Z.log2_double size' ltac:(lia)) as Hd.
    pose proof (Z.log2_le_mono (2 * size') size H2). lia.
Qed.

Lemma tests_bound_nonneg size : 0 <= tests_bound size.
Proof.
  unfold tests_bound. destruct (size <=? 0); [lia|].
  pose proof (Z.log2_nonneg size). lia.
Qed.

(** A pass whose first verdict is not [IGNORE] is a step of the plain
    binary search. *)
Lemma iteration_decided st st' :
  left st <= right st -> iteration st st' ->
  oracle (List.length (prompts st)) (midpoint st) <> IGNORE ->
  (oracle (List.length (prompts st)) (midpoint st) = PASS /\
   st' = on_pass (midpoint st) (log_test (midpoint st) PASS st)) \/
  (oracle (List.length (prompts st)) (midpoint st) = FAIL /\
   st' = narrow (midpoint st)
           (on_fail (midpoint st) (log_test (midpoint st) FAIL st))).
Proof.
  intros H It Hno. pose proof (mid_bounds _ _ H) as [Hm _].
  fold (midpoint st) in Hm.
  assert (Hfirst : forall c, midpoint st <= c -> sweeps st (midpoint st) c ->
            c = midpoint st).
  { intros c Hc Hsw. destruct (Z.eq_dec c (midpoint st)) as [->|Hne]; auto.
    specialize (Hsw (midpoint st) ltac:(lia)).
    replace (Z.to_nat (midpoint st - midpoint st)) with O in Hsw by lia.
    rewrite Nat.add_0_r in Hsw. contradiction. }
  assert (Hans : answer st (midpoint st) (midpoint st) =
                 oracle (List.length (prompts st)) (midpoint st)).
  { unfold answer.
    replace (Z.to_nat (midpoint st - midpoint st)) with O by lia.
    now rewrite Nat.add_0_r. }
  destruct It as [c Hc Hsw Ha|c Hc Hsw Ha|Hsw].
  - rewrite (Hfirst c) in * by (lia || assumption).
    rewrite after_sweep_nil. left. now rewrite <- Hans.
  - rewrite (Hfirst c) in * by (lia || assumption).
    rewrite after_sweep_nil. right. now rewrite <- Hans.
  - specialize (Hfirst (right st + 1) ltac:(lia) Hsw). lia.
Qed.

Lemma clean_run fuel : forall st,
  (forall n i, 0 <= i < Z.of_nat (List.length items) -> oracle n i <> IGNORE) ->
  0 <= left st -> right st < Z.of_nat (List.length items) ->
  left st <= right st + 1 ->
  right st - left st + 1 <= Z.of_nat fuel ->
  (0 <= lastGoodIndex st -> lastGoodIndex st = left st - 1) ->
  (0 <= firstBadIndex st -> firstBadIndex st = right st + 1) ->
  exists fin,
    bisect_loop fuel st = Some fin /\
    Z.of_nat (List.length (prompts fin)) <=
      Z.of_nat (List.length (prompts st)) + tests_bound (right st - left st + 1) /\
    (0 <= lastGoodIndex fin -> 0 <= firstBadIndex fin ->
     lastGoodIndex fin + 1 = firstBadIndex fin).
Proof.
  induction fuel as [|fuel IH]; intros st Hno Hl Hr Ho Hfuel Hg Hb;
    cbn [bisect_loop]; destruct (left st <=? right st) eqn:E; try lia.
  1,3: exists st; split; [reflexivity|]; split;
    [pose proof (tests_bound_nonneg (right st - left st + 1)); lia | lia].
  assert (H : left st <= right st) by lia.
  pose proof (mid_bounds _ _ H) as [Hm Hm2]. fold (midpoint st) in Hm, Hm2.
  destruct (outer_body_spec st H) as (st1 & -> & It).
  destruct (iteration_decided st st1 H It
              (Hno (List.length (prompts st)) (midpoint st) ltac:(lia)))
    as [[_ ->]|[_ ->]].
  - destruct (IH (on_pass (midpoint st) (log_test (midpoint st) PASS st)))
      as (fin & Efin & Hlen & Hgap); cbn; try lia; auto.
    exists fin. split; [exact Efin|]. split; [|exact Hgap].
    cbn in Hlen. rewrite length_app in Hlen. cbn in Hlen.
    pose proof (tests_bound_halves (right st - left st + 1)
                  (right st - (midpoint st + 1) + 1)
                  ltac:(lia) ltac:(lia)).
    lia.
  - destruct (IH (narrow (midpoint st)
                    (on_fail (midpoint st) (log_test (midpoint st) FAIL st))))
      as (fin & Efin & Hlen & Hgap); cbn; try lia; auto.
    exists fin. split; [exact Efin|]. split; [|exact Hgap].
    cbn in Hlen. rewrite length_app in Hlen. cbn in Hlen.
    pose proof (tests_bound_halves (right st - left st + 1)
                  (midpoint st - 1 - left st + 1)
                  ltac:(lia) ltac:(lia)).
    lia.
Qed.

(** ** Runs where every verdict is [IGNORE] *)

Lemma all_ignored_run fuel : forall st,
  (forall n i, 0 <= i < Z.of_nat (List.length items) -> oracle n i = IGNORE) ->
  0 <= left st -> right st < Z.of_nat (List.length items) ->
  left st <= right st + 1 ->
  right st - left st + 1 <= Z.of_nat fuel ->
  exists fin order,
    bisect_loop fuel st = Some fin /\
    Permutation order (zrange (left st) (right st + 1)) /\
    prompts fin = prompts st ++ map ignored order /\
    ignoredItems fin = ignoredItems st ++ order /\
    lastGoodIndex fin = lastGoodIndex st /\
    firstBadIndex fin = firstBadIndex st.
Proof.
  induction fuel as [|fuel IH]; intros st Hall Hl Hr Ho Hfuel;
    cbn [bisect_loop]; destruct (left st <=? right st) eqn:E; try lia.
  1,3: exists st, []; rewrite zrange_nil by lia; cbn; rewrite !app_nil_r;
    repeat split; constructor.
  assert (H : left st <= right st) by lia.
  pose proof (mid_bounds _ _ H) as [Hm _]. fold (midpoint st) in Hm.
  destruct (outer_body_spec st H) as (st1 & -> & It).
  assert (st1 = narrow (midpoint st)
                  (after_sweep st (midpoint st) (right st + 1))) as ->.
  { destruct It as [c Hc Hsw Ha|c Hc Hsw Ha|Hsw]; [| |reflexivity];
      unfold answer in Ha; rewrite Hall in Ha by lia; discriminate. }
  destruct (IH (narrow (midpoint st)
                  (after_sweep st (midpoint st) (right st + 1))))
    as (fin & order & Efin & Hperm & Hp & Hi & Hg & Hb); cbn; try lia; auto.
  cbn in Hperm, Hp, Hi, Hg, Hb.
  exists fin, (zrange (midpoint st) (right st + 1) ++ order).
  split; [exact Efin|]. split; [|split; [|split; [|split]]]; auto.
  - rewrite (zrange_app (left st) (midpoint st) (right st + 1)) by lia.
    replace (midpoint st - 1 + 1) with (midpoint st) in Hperm by lia.
    rewrite Permutation_app_comm. now apply Permutation_app_tail.
  - now rewrite Hp, map_app, app_assoc.
  - now rewrite Hi, app_assoc.
Qed.

(** ** The binary engine *)

Lemma agree_step st b :
  (forall n i, oracle n i <> IGNORE) ->
  agree st b -> left st <= right st ->
  exists st', outer_body st = Some st' /\
    agree st' (Binary.loop_body options items (as_binary oracle) b).
Proof.
  intros Hno (Hl & Hr & Hg & Hb & Hp & Hi) H.
  destruct (outer_body_spec st H) as (st' & E & It).
  exists st'. split; [exact E|].
  unfold Binary.loop_body, Binary.confirmResult, Binary.runCommand.
  rewrite <- Hl, <- Hr. fold (midpoint st).
  assert (Hlen : List.length (Binary.prompts b) = List.length (prompts st))
    by (rewrite <- Hp; apply length_map).
  destruct (iteration_decided st st' H It (Hno _ _)) as [[Ho ->]|[Ho ->]];
    destruct (truthy (nextStateCommand options)); cbn;
    rewrite Hlen; unfold as_binary; rewrite Ho; cbn;
    unfold agree; cbn; rewrite map_app, Hp; cbn; auto 10.
Qed.

Lemma agree_run fuel : forall st b,
  (forall n i, oracle n i <> IGNORE) ->
  agree st b ->
  match bisect_loop fuel st,
        Binary.bisect_loop options items (as_binary oracle) fuel b with
  | Some st', Some b' => agree st' b'
  | None, None => True
  | _, _ => False
  end.
Proof.
  induction fuel as [|fuel IH]; intros st b Hno Hag;
    cbn [bisect_loop Binary.bisect_loop];
    pose proof Hag as (Hl & Hr & _); rewrite <- Hl, <- Hr;
    destruct (left st <=? right st) eqn:E; auto.
  destruct (agree_step st b Hno Hag ltac:(lia)) as (st' & -> & Hag').
  apply IH; [exact Hno|exact Hag'].
Qed.

(** ** The report *)

Lemma between_loop_spec st fuel : forall i pushed,
  firstBadIndex st - i <= Z.of_nat fuel ->
  between_loop st fuel i pushed =
  pushed ++ map (annotate st) (zrange i (firstBadIndex st)).
Proof.
  induction fuel as [|fuel IH]; intros i pushed Hfuel; cbn.
  - rewrite zrange_nil by lia. cbn. now rewrite app_nil_r.
  - destruct (i <? firstBadIndex st) eqn:E.
    + rewrite IH by lia. rewrite (zrange_cons i) by lia. cbn.
      now rewrite <- app_assoc.
    + rewrite zrange_nil by lia. cbn. now rewrite app_nil_r.
Qed.

Lemma annotate_spec st i :
  annotate st i = quoted i +++ annotation st i.
Proof.
  unfold annotate, annotation.
  destruct (in_dec Z.eq_dec i (ignoredItems st)) as [Hin|Hnin].
  - assert (existsb (Z.eqb i) (ignoredItems st) = true) as ->; auto.
    apply existsb_exists. exists i. split; [exact Hin|apply Z.eqb_refl].
  - destruct (existsb (Z.eqb i) (ignoredItems st)) eqn:E; auto.
    apply existsb_exists in E. destruct E as (j & Hj & Hij).
    apply Z.eqb_eq in Hij. subst j. contradiction.
Qed.

Lemma itemsInBetween_spec st :
  itemsInBetween st =
  map (fun i => quoted i +++ annotation st i)
    (zrange (lastGoodIndex st + 1) (firstBadIndex st)).
Proof.
  unfold itemsInBetween. rewrite between_loop_spec by lia. cbn.
  apply map_ext. intros i. apply annotate_spec.
Qed.

(** ** The claims *)

(** C5: for every list of items and every oracle, each pass through the
    outer loop returns, never moves [left] down or [right] up, and leaves
    a range [left, right] strictly smaller than the one it started with;
    so the search loop ends within one pass per item (the fuel counts the
    passes through the outer loop), with an empty range. *)
Theorem range_shrinks_on_every_pass :
  (forall st, left st <= right st ->
     exists st', outer_body st = Some st' /\
       left st <= left st' /\ right st' <= right st /\
       right st' - left st' < right st - left st) /\
  exists fin,
    bisect_loop (List.length items) initial = Some fin /\
    right fin < left fin.
Proof.
  split.
  - intros st H. destruct (outer_body_spec st H) as (st' & E & It).
    exists st'. split; [exact E|].
    pose proof (iteration_range st st' H It). lia.
  - destruct run_completes as (fin & E & _ & Hend). now exists fin.
Qed.

(** C10: for every list of items and every oracle.  The indices tested
    in one pass through the outer loop are, in order, those from the
    midpoint up to some index [c] of the range the pass started with (the
    one that passed or failed, or [right] if all were ignored), and none
    of them is in the range [left, right] the pass leaves; over a whole
    run no index is tested twice. *)
Theorem no_index_is_tested_twice :
  (forall st st', left st <= right st -> outer_body st = Some st' ->
     exists c new,
       left st <= midpoint st <= c /\ c <= right st /\
       prompts st' = prompts st ++ new /\
       map fst new = zrange (midpoint st) (c + 1) /\
       forall i, midpoint st <= i <= c -> i < left st' \/ right st' < i) /\
  exists fin,
    bisect_loop (List.length items) initial = Some fin /\
    NoDup (map fst (prompts fin)).
Proof.
  split.
  - intros st st' H E. destruct (outer_body_spec st H) as (st1 & E1 & It).
    rewrite E in E1. injection E1 as <-.
    now apply iteration_new_tests.
  - destruct run_completes as (fin & E & I & _). exists fin.
    split; [exact E|]. apply (inv_nodup _ I).
Qed.

(** C7: for every list of items and every oracle.  From any control
    point of the run to any later one, [lastGoodIndex] does not decrease,
    and [firstBadIndex], once set, stays set and does not increase.  Over
    the whole run, a test that passes has an index at least that of every
    earlier test that passed, and a test that fails an index at most that
    of every earlier test that failed; at the end [lastGoodIndex] and
    [firstBadIndex] are the indices of the last test that passed and of
    the last test that failed. *)
Theorem recorded_indices_are_monotone :
  (forall n m,
     lastGoodIndex (vars (steps n (OuterTest initial))) <=
     lastGoodIndex (vars (steps (n + m) (OuterTest initial))) /\
     (0 <= firstBadIndex (vars (steps n (OuterTest initial))) ->
      0 <= firstBadIndex (vars (steps (n + m) (OuterTest initial)))
        <= firstBadIndex (vars (steps n (OuterTest initial))))) /\
  exists fin,
    bisect_loop (List.length items) initial = Some fin /\
    (exists n, steps n (OuterTest initial) = LoopDone fin) /\
    (forall l1 i l2 j l3,
       prompts fin = l1 ++ (i, PASS) :: l2 ++ (j, PASS) :: l3 -> i <= j) /\
    (forall l1 i l2 j l3,
       prompts fin = l1 ++ (i, FAIL) :: l2 ++ (j, FAIL) :: l3 -> j <= i) /\
    lastGoodIndex fin = last_index PASS (prompts fin) /\
    firstBadIndex fin = last_index FAIL (prompts fin).
Proof.
  split.
  - intros n m. rewrite steps_add.
    apply steps_monotone, point_ok_steps.
  - destruct run_completes as (fin & E & I & _). exists fin.
    split; [exact E|]. split; [now apply (bisect_loop_steps _ _ _ E)|].
    split; [|split; [|split]].
    + intros l1 i l2 j l3 Ht. pose proof (inv_rising _ I) as Hr.
      rewrite Ht in Hr. apply FOP_split in Hr.
      specialize (Hr eq_refl eq_refl). cbn in Hr. lia.
    + intros l1 i l2 j l3 Ht. pose proof (inv_falling _ I) as Hf.
      rewrite Ht in Hf. apply FOP_split in Hf.
      specialize (Hf eq_refl eq_refl). cbn in Hf. lia.
    + apply (inv_good _ I).
    + apply (inv_bad _ I).
Qed.

(** C9: for every list of items and every oracle, monotone or not: at
    every control point of the run where [lastGoodIndex] and
    [firstBadIndex] are both set, the first is below the second; the run
    ends, and at its end the gap the report computes,
    [firstBadIndex - lastGoodIndex], is at least 1 when both are set. *)
Theorem good_index_below_bad_index :
  (forall n,
     0 <= lastGoodIndex (vars (steps n (OuterTest initial))) ->
     0 <= firstBadIndex (vars (steps n (OuterTest initial))) ->
     lastGoodIndex (vars (steps n (OuterTest initial))) <
     firstBadIndex (vars (steps n (OuterTest initial)))) /\
  exists fin,
    bisect_loop (List.length items) initial = Some fin /\
    (exists n, steps n (OuterTest initial) = LoopDone fin) /\
    (0 <= lastGoodIndex fin -> 0 <= firstBadIndex fin ->
     1 <= firstBadIndex fin - lastGoodIndex fin).
Proof.
  assert (Hpt : forall p, point_ok p ->
            0 <= lastGoodIndex (vars p) -> 0 <= firstBadIndex (vars p) ->
            lastGoodIndex (vars p) < firstBadIndex (vars p)).
  { intros [st|mid st cur|mid st cur|st]; cbn; unfold bounded; lia. }
  split.
  - intros n. apply Hpt, point_ok_steps.
  - destruct run_completes as (fin & E & _ & _). exists fin.
    split; [exact E|].
    destruct (bisect_loop_steps _ _ _ E) as [n Hn].
    split; [now exists n|].
    intros Hg Hb. pose proof (Hpt _ (point_ok_steps n)) as H.
    rewrite Hn in H. cbn in H. lia.
Qed.

(** C3: for N >= 1 items and an oracle that passes the items before
    some index [k] and fails the others (one transition from good to bad,
    and no [IGNORE]), [bisect] completes within N passes through the outer
    loop, after at most ceil(log2 N) + 1 tests, and if both
    [lastGoodIndex] and [firstBadIndex] are set at the end then
    [lastGoodIndex + 1 = firstBadIndex]. *)
Theorem clean_run_is_logarithmic (k : Z) :
  (1 <= List.length items)%nat ->
  (forall n i, 0 <= i < Z.of_nat (List.length items) ->
     oracle n i = if i <? k then PASS else FAIL) ->
  exists fin,
    bisect (List.length items) = Some (Completed fin (report fin)) /\
    Z.of_nat (List.length (prompts fin)) <=
      Z.log2_up (Z.of_nat (List.length items)) + 1 /\
    (0 <= lastGoodIndex fin -> 0 <= firstBadIndex fin ->
     lastGoodIndex fin + 1 = firstBadIndex fin).
Proof.
  intros HN Hmono.
  destruct (clean_run (List.length items) initial)
    as (fin & E & Hlen & Hgap); cbn; try lia.
  { intros n i Hi. rewrite Hmono by exact Hi. now destruct (i <? k). }
  exists fin. unfold bisect. rewrite E.
  destruct (List.length items =? 0)%nat eqn:E0;
    [apply Nat.eqb_eq in E0; lia|].
  split; [reflexivity|]. split; [|exact Hgap].
  cbn in Hlen. unfold tests_bound in Hlen.
  replace (Z.of_nat (List.length items) - 1 - 0 + 1)
    with (Z.of_nat (List.length items)) in Hlen by lia.
  destruct (Z.of_nat (List.length items) <=? 0) eqn:E1; [lia|].
  pose proof (Z.le_log2_log2_up (Z.of_nat (List.length items))). lia.
Qed.

(** C4: for N >= 1 items and an oracle that ignores every item,
    [bisect] completes within N passes through the outer loop; the indices
    tested are a rearrangement of 0, ..., N - 1 (each is tested exactly
    once), and so are the indices in [ignoredItems]; [lastGoodIndex] and
    [firstBadIndex] are unset; and the report, after the line of the
    ignored items, says that no good and no bad item were found, and
    nothing more. *)
Theorem all_ignored_run_tests_every_item_once :
  (1 <= List.length items)%nat ->
  (forall n i, 0 <= i < Z.of_nat (List.length items) -> oracle n i = IGNORE) ->
  exists fin,
    bisect (List.length items) = Some (Completed fin (report fin)) /\
    Permutation (map fst (prompts fin))
      (zrange 0 (Z.of_nat (List.length items))) /\
    Permutation (ignoredItems fin) (zrange 0 (Z.of_nat (List.length items))) /\
    lastGoodIndex fin = -1 /\ firstBadIndex fin = -1 /\
    report fin =
    report_header ++ report_ignored fin
    ++ [ "✅ No good items found"%string; "❌ No bad items found"%string ].
Proof.
  intros HN Hall.
  destruct (all_ignored_run (List.length items) initial Hall)
    as (fin & order & E & Hperm & Hp & Hi & Hg & Hb); cbn; try lia.
  cbn in Hperm, Hp, Hi, Hg, Hb.
  replace (Z.of_nat (List.length items) - 1 + 1)
    with (Z.of_nat (List.length items)) in Hperm by lia.
  exists fin. unfold bisect. rewrite E.
  destruct (List.length items =? 0)%nat eqn:E0;
    [apply Nat.eqb_eq in E0; lia|].
  split; [reflexivity|].
  split; [now rewrite Hp, map_fst_ignored|].
  split; [now rewrite Hi|].
  split; [exact Hg|]. split; [exact Hb|].
  unfold report, report_good, report_bad, report_boundary.
  rewrite Hg, Hb. reflexivity.
Qed.

(** C6: in a state where [lastGoodIndex] and [firstBadIndex] are both
    set, with gap = firstBadIndex - lastGoodIndex: if the gap is 1, the
    report names the two adjacent items as the place of the change; if
    the gap is more than 1, [itemsInBetween] has one entry for every
    index strictly between the two, in order, marked (ignored) if the
    index is in [ignoredItems] and (untested) otherwise, and the report
    prints these entries between the last good and the first bad item. *)
Theorem report_locates_the_boundary (st : State) :
  0 <= lastGoodIndex st -> 0 <= firstBadIndex st ->
  (firstBadIndex st - lastGoodIndex st = 1 ->
   report_boundary st =
   [ "🔍 The issue was introduced between:"%string;
     "   " +++ quoted (lastGoodIndex st) +++ " (good) and "
     +++ quoted (firstBadIndex st) +++ " (bad)" ]) /\
  (firstBadIndex st - lastGoodIndex st > 1 ->
   itemsInBetween st =
   map (fun i =>
          quoted i +++
          (if in_dec Z.eq_dec i (ignoredItems st)
           then " (ignored)" else " (untested)"))
     (zrange (lastGoodIndex st + 1) (firstBadIndex st)) /\
   report_boundary st =
   [ "🔍 The issue was introduced somewhere in this range:"%string;
     "   After: " +++ quoted (lastGoodIndex st) +++ " (good)";
     "   Between: " +++ join ", " (itemsInBetween st);
     "   Before: " +++ quoted (firstBadIndex st) +++ " (bad)" ]
   ++ (if existsb (fun item => includes item "(untested)") (itemsInBetween st)
       then [ "💡 Consider testing the untested items to narrow down further."%string ]
       else [])).
Proof.
  intros Hg Hb. unfold report_boundary.
  destruct (firstBadIndex st >=? 0) eqn:E1; [|lia].
  destruct (lastGoodIndex st >=? 0) eqn:E2; [|lia].
  cbn [andb]. split; intros Hgap.
  - rewrite Hgap. reflexivity.
  - destruct (firstBadIndex st - lastGoodIndex st =? 1) eqn:E3; [lia|].
    destruct (firstBadIndex st - lastGoodIndex st >? 1) eqn:E4; [|lia].
    split; [apply itemsInBetween_spec|].
    assert ((0 <? List.length (itemsInBetween st))%nat = true) as ->.
    { rewrite itemsInBetween_spec, length_map, zrange_length.
      apply Nat.ltb_lt. lia. }
    reflexivity.
Qed.

(** C8: for every list of items and every oracle that never answers
    [IGNORE], the ternary engine and the binary engine of [main.ts], asked
    the same questions with the same answers (pass for a confirmation,
    fail for a denial), both complete within N passes through the outer
    loop, test the same indices in the same order with the same verdicts,
    and end with the same [lastGoodIndex] and [firstBadIndex]; the
    ternary engine ignores nothing. *)
Theorem ternary_engine_runs_as_binary :
  (forall n i, oracle n i <> IGNORE) ->
  exists fin bfin,
    bisect_loop (List.length items) initial = Some fin /\
    Binary.bisect_loop options items (as_binary oracle)
      (List.length items) (Binary.initial items) = Some bfin /\
    map fst (prompts fin) = map fst (Binary.prompts bfin) /\
    map (fun e => (fst e, is_pass (snd e))) (prompts fin) =
      Binary.prompts bfin /\
    lastGoodIndex fin = Binary.lastGoodIndex bfin /\
    firstBadIndex fin = Binary.firstBadIndex bfin /\
    ignoredItems fin = [].
Proof.
  intros Hno.
  destruct run_completes as (fin & E & _ & _).
  assert (Hag : agree initial (Binary.initial items))
    by (unfold agree; cbn; auto 10).
  pose proof (agree_run (List.length items) _ _ Hno Hag) as Hrun.
  rewrite E in Hrun.
  destruct (Binary.bisect_loop options items (as_binary oracle)
              (List.length items) (Binary.initial items)) as [bfin|];
    [|contradiction].
  destruct Hrun as (_ & _ & Hg & Hb & Hp & Hi).
  exists fin, bfin. split; [exact E|]. split; [reflexivity|].
  split; [|auto]. rewrite <- Hp, map_map. reflexivity.
Qed.

(** C1, as amended: in a pass through the outer loop in which the
    oracle ignores the items from the midpoint up to [c - 1] and fails
    the item at [c], the inner loop records [firstBadIndex = c], sets
    [right = c - 1] and ends at [currentIndex = c]; the check after the
    inner loop, [currentIndex > right], then holds, and the pass ends with
    [right = mid - 1] ([left] as it was, [firstBadIndex = c]), which is
    [c - 1] only if the item that failed is the one at the midpoint. *)
Theorem fail_leaves_right_below_mid (st : State) (c : Z) :
  left st <= right st ->
  midpoint st <= c <= right st ->
  sweeps st (midpoint st) c ->
  answer st (midpoint st) c = FAIL ->
  exists st1 st2,
    inner_loop (Z.to_nat (right st - midpoint st + 1)) st (midpoint st) =
      Some (st1, c) /\
    firstBadIndex st1 = c /\ right st1 = c - 1 /\
    outer_body st = Some st2 /\
    firstBadIndex st2 = c /\ left st2 = left st /\
    right st2 = midpoint st - 1 /\
    (right st2 = c - 1 <-> c = midpoint st).
Proof.
  intros H Hc Hsw Ha. pose proof (mid_bounds _ _ H) as [Hm _].
  fold (midpoint st) in Hm.
  destruct (inner_loop_spec (Z.to_nat (right st - midpoint st + 1))
              st (midpoint st)) as (c' & Hc' & Hsw' & Hcases); try lia.
  assert (c' = c) as ->.
  { destruct (Z.lt_trichotomy c' c) as [Hlt|[Heq|Hgt]]; [|exact Heq|].
    - specialize (Hsw c' ltac:(lia)). fold (answer st (midpoint st) c') in Hsw.
      destruct Hcases as [(E & _)|[(_ & E & _)|(_ & E & _)]];
        [lia|congruence|congruence].
    - specialize (Hsw' c ltac:(lia)). fold (answer st (midpoint st) c) in Hsw'.
      congruence. }
  destruct Hcases as [(E & _)|[(_ & E & _)|(_ & _ & E)]];
    [lia|congruence|].
  do 2 eexists. split; [exact E|].
  split; [reflexivity|]. split; [reflexivity|].
  unfold outer_body. fold (midpoint st). rewrite E. cbn [right on_fail].
  destruct (c >? c - 1) eqn:G; [|lia].
  split; [reflexivity|]. cbn. repeat split; auto; lia.
Qed.

(** The commands of a whole run, test by test: the command that
    changes the state, if one is configured, with the item in place of
    every [@i], then the test command as it was given. *)
Theorem commands_of_a_run :
  exists fin,
    bisect_loop (List.length items) initial = Some fin /\
    spawned fin =
    flat_map
      (fun i =>
         (if truthy (nextStateCommand options) then
            [ if truthy (item_at items i) then
                replaceAll (show_item (nextStateCommand options)) "@i"
                  (show_item (item_at items i))
              else show_item (nextStateCommand options) ]
          else [])
         ++ [ testCommand options ])
      (map fst (prompts fin)).
Proof.
  destruct run_completes as (fin & E & I & _). exists fin.
  split; [exact E|apply (inv_spawned _ I)].
Qed.

(** ** More about the search loop *)

Lemma item_at_in_range i :
  0 <= i < Z.of_nat (List.length items) -> exists s, item_at items i = Some s.
Proof.
  intros Hi. unfold item_at. destruct (i <? 0) eqn:E; [lia|].
  destruct (nth_error items (Z.to_nat i)) as [x|] eqn:En; [now exists x|].
  apply nth_error_None in En. lia.
Qed.

(** A variable holds [-1] or the index of a test with the verdict it
    records. *)
Lemma last_index_cases v t :
  last_index v t = -1 \/ In (last_index v t, v) t.
Proof.
  induction t as [|e t IH] using rev_ind; [now left|].
  unfold last_index in *. rewrite fold_left_app. cbn.
  unfold record_verdict at 1 3. destruct e as [i r]. cbn [fst snd].
  destruct (TestResult_eqb r v) eqn:E.
  - right. apply in_app_iff. right. left.
    destruct r, v; try discriminate; reflexivity.
  - destruct IH as [IH|IH]; [now left|].
    right. apply in_app_iff. now left.
Qed.

Lemma iteration_settles st st' :
  Inv st -> Settled st -> left st <= right st ->
  iteration st st' -> Settled st'.
Proof.
  intros I S H It. pose proof (mid_bounds _ _ H) as [Hm _].
  fold (midpoint st) in Hm.
  pose proof (inv_left _ I) as Il.
  pose proof (settled_good _ S) as Sg.
  pose proof (settled_above _ S) as Sa.
  pose proof (settled_answers _ S) as Sn.
  destruct It as [c Hc Hsw Ha|c Hc Hsw Ha|Hsw]; constructor;
    unfold ceiling in *; cbn; try lia.
  - intros i Hi. apply in_app_iff. left. now apply Sa.
  - intros i v Hin. members.
    + now apply Sn.
    + subst v. eexists. symmetry. apply (Hsw i Hin).
    + eexists. symmetry. exact Ha.
  - intros i Hi. destruct (c >=? 0) eqn:E; [|lia].
    apply in_app_iff. right. apply in_zrange. lia.
  - intros i v Hin. members.
    + now apply Sn.
    + subst v. eexists. symmetry. apply (Hsw i Hin).
    + eexists. symmetry. exact Ha.
  - intros i Hi. apply in_app_iff.
    destruct (Z_le_gt_dec i (right st)) as [Hle|Hgt].
    + right. apply in_zrange. lia.
    + left. apply Sa. lia.
  - intros i v Hin. members.
    + now apply Sn.
    + subst v. eexists. symmetry. apply (Hsw i Hin).
Qed.

Lemma Settled_initial : Settled initial.
Proof.
  constructor; unfold ceiling; cbn; try lia.
Qed.

(** The state at the end of the search loop. *)
Lemma run_settles :
  exists fin,
    bisect_loop (List.length items) initial = Some fin /\
    Inv fin /\ Settled fin /\ left fin = right fin + 1.
Proof.
  destruct (bisect_loop_terminates (List.length items) initial) as [fin E];
    [cbn; lia|].
  exists fin. split; [exact E|].
  destruct (bisect_loop_invariant (fun st => Inv st /\ Settled st)) with
    (fuel := List.length items) (st := initial) (st' := fin)
    as [[I S] Hend]; auto.
  - intros st st' [I S] H It.
    split; [now apply (iteration_preserves st)|now apply (iteration_settles st)].
  - split; [apply Inv_initial|apply Settled_initial].
  - split; [exact I|]. split; [exact S|].
    pose proof (inv_order _ I). lia.
Qed.

Lemma recorded_good st :
  Inv st -> 0 <= lastGoodIndex st -> In (lastGoodIndex st, PASS) (prompts st).
Proof.
  intros I Hg. rewrite (inv_good _ I) in *.
  destruct (last_index_cases PASS (prompts st)); [lia|assumption].
Qed.

Lemma recorded_bad st :
  Inv st -> 0 <= firstBadIndex st -> In (firstBadIndex st, FAIL) (prompts st).
Proof.
  intros I Hb. rewrite (inv_bad _ I) in *.
  destruct (last_index_cases FAIL (prompts st)); [lia|assumption].
Qed.

Lemma unset_bad st : Inv st -> firstBadIndex st < 0 -> firstBadIndex st = -1.
Proof.
  intros I Hb. rewrite (inv_bad _ I) in *.
  destruct (last_index_cases FAIL (prompts st)) as [E|Hin]; [exact E|].
  apply (inv_tested _ I) in Hin. lia.
Qed.

Lemma NoDup_map_filter (f : Z * TestResult -> bool) t :
  NoDup (map fst t) -> NoDup (map fst (filter f t)).
Proof.
  induction t as [|e t IH]; cbn; intros H; [constructor|].
  inversion H as [|? ? Hn Hd]; subst.
  destruct (f e); cbn; [constructor|]; auto.
  intros Hin. apply Hn. apply in_map_iff in Hin.
  destruct Hin as (x & Hx & Hin). apply filter_In in Hin.
  apply in_map_iff. exists x. tauto.
Qed.

(** X1: for every list of items and every oracle, the search loop ends
    after at most as many tests as there are items. *)
Theorem tests_never_exceed_items :
  exists fin,
    bisect_loop (List.length items) initial = Some fin /\
    (List.length (prompts fin) <= List.length items)%nat.
Proof.
  destruct run_completes as (fin & E & I & _). exists fin.
  split; [exact E|].
  rewrite <- (length_map fst (prompts fin)).
  replace (List.length items)
    with (List.length (zrange 0 (Z.of_nat (List.length items))))
    by (rewrite zrange_length; lia).
  apply NoDup_incl_length; [apply (inv_nodup _ I)|].
  intros i Hin. apply in_map_iff in Hin. destruct Hin as ([j v] & <- & Hin).
  apply in_zrange. apply (inv_tested _ I) in Hin. cbn. lia.
Qed.

(** X2: for every list of items and every oracle, every index the run
    reads [items] at is an index of the list: the indices tested, those
    in [ignoredItems], and at the end [lastGoodIndex] and [firstBadIndex]
    when they are set; the report prints no undefined item. *)
Theorem indices_stay_in_bounds :
  exists fin,
    bisect_loop (List.length items) initial = Some fin /\
    (forall i, In i (map fst (prompts fin)) ->
       exists s, item_at items i = Some s) /\
    (forall i, In i (ignoredItems fin) -> exists s, item_at items i = Some s) /\
    (0 <= lastGoodIndex fin ->
     exists s, item_at items (lastGoodIndex fin) = Some s) /\
    (0 <= firstBadIndex fin ->
     exists s, item_at items (firstBadIndex fin) = Some s).
Proof.
  destruct run_completes as (fin & E & I & _). exists fin.
  assert (Ht : forall i v, In (i, v) (prompts fin) ->
            exists s, item_at items i = Some s).
  { intros i v Hin. apply item_at_in_range.
    apply (inv_tested _ I) in Hin. lia. }
  split; [exact E|]. split; [|split; [|split]].
  - intros i Hin. apply in_map_iff in Hin.
    destruct Hin as ([j v] & <- & Hin). now apply (Ht j v).
  - intros i Hin. rewrite (inv_ignored _ I) in Hin. apply in_map_iff in Hin.
    destruct Hin as ([j v] & <- & Hin). apply filter_In in Hin.
    now apply (Ht j v).
  - intros Hg. apply (Ht _ PASS). now apply recorded_good.
  - intros Hb. apply (Ht _ FAIL). now apply recorded_bad.
Qed.

(** X3: for every list of items and every oracle, at every control point
    of the run [lastGoodIndex] is [left - 1]: the last good item is the
    one just below the range still searched (none while [left] is 0). *)
Theorem last_good_is_just_below_the_range :
  forall n,
    lastGoodIndex (vars (steps n (OuterTest initial))) =
    left (vars (steps n (OuterTest initial))) - 1.
Proof.
  assert (Hstep : forall p, lastGoodIndex (vars p) = left (vars p) - 1 ->
            lastGoodIndex (vars (step p)) = left (vars (step p)) - 1).
  { intros [st|mid st cur|mid st cur|st]; cbn [step vars]; intros H.
    - destruct (left st <=? right st); exact H.
    - destruct (cur <=? right st); [|exact H].
      rewrite test_item_eq.
      destruct (oracle (List.length (prompts st)) cur); cbn; lia.
    - destruct (cur >? right st); cbn; lia.
    - exact H. }
  assert (Hsteps : forall n p, lastGoodIndex (vars p) = left (vars p) - 1 ->
            lastGoodIndex (vars (steps n p)) = left (vars (steps n p)) - 1).
  { induction n as [|n IH]; intros p Hp; cbn; auto. }
  intros n. apply Hsteps. reflexivity.
Qed.

(** X4: for every list of items and every oracle, at the end of the
    search loop every index above [lastGoodIndex] and below
    [firstBadIndex] (below the number of items when no item failed) is in
    [ignoredItems]: the loop leaves no item untested between the last
    good and the first bad one. *)
Theorem items_between_are_all_ignored :
  exists fin,
    bisect_loop (List.length items) initial = Some fin /\
    forall i,
      lastGoodIndex fin < i <
      (if firstBadIndex fin >=? 0 then firstBadIndex fin
       else Z.of_nat (List.length items)) ->
      In i (ignoredItems fin).
Proof.
  destruct run_settles as (fin & E & I & S & Hend). exists fin.
  split; [exact E|]. intros i Hi. apply (settled_above _ S).
  unfold ceiling. rewrite (settled_good _ S) in Hi. lia.
Qed.

(** X5: for every list of items and every oracle, in the report of a
    complete run every entry of [itemsInBetween] is marked (ignored) and
    none (untested); so the line that advises to test the untested
    items is printed only when the text of an entry, the name of the item
    included, happens to contain (untested). *)
Theorem report_marks_nothing_untested :
  exists fin,
    bisect_loop (List.length items) initial = Some fin /\
    itemsInBetween fin =
    map (fun i => quoted i +++ " (ignored)")
      (zrange (lastGoodIndex fin + 1) (firstBadIndex fin)) /\
    (existsb (fun item => includes item "(untested)") (itemsInBetween fin)
       = true ->
     exists i, lastGoodIndex fin < i < firstBadIndex fin /\
       includes (quoted i +++ " (ignored)") "(untested)" = true).
Proof.
  destruct run_settles as (fin & E & I & S & Hend). exists fin.
  assert (Hmap : itemsInBetween fin =
            map (fun i => quoted i +++ " (ignored)")
              (zrange (lastGoodIndex fin + 1) (firstBadIndex fin))).
  { rewrite itemsInBetween_spec. apply map_ext_in. intros i Hi.
    apply in_zrange in Hi. unfold annotation.
    destruct (in_dec Z.eq_dec i (ignoredItems fin)) as [_|Hn]; [reflexivity|].
    exfalso. apply Hn, (settled_above _ S). unfold ceiling.
    rewrite (settled_good _ S) in Hi.
    destruct (firstBadIndex fin >=? 0) eqn:G; lia. }
  split; [exact E|]. split; [exact Hmap|].
  rewrite Hmap. intros Hex. apply existsb_exists in Hex.
  destruct Hex as (x & Hx & Hinc). apply in_map_iff in Hx.
  destruct Hx as (i & <- & Hi). apply in_zrange in Hi.
  exists i. split; [lia|exact Hinc].
Qed.

Lemma clean_boundary (k : Z) :
  0 <= k <= Z.of_nat (List.length items) ->
  (forall n i, 0 <= i < Z.of_nat (List.length items) ->
     oracle n i = if i <? k then PASS else FAIL) ->
  exists fin,
    bisect_loop (List.length items) initial = Some fin /\
    lastGoodIndex fin = k - 1 /\
    firstBadIndex fin =
      (if k <? Z.of_nat (List.length items) then k else -1) /\
    ignoredItems fin = [].
Proof.
  intros Hk Hmono.
  destruct run_settles as (fin & E & I & S & Hend). exists fin.
  assert (Htruth : forall i v, In (i, v) (prompts fin) ->
            v = if i <? k then PASS else FAIL).
  { intros i v Hin. destruct (settled_answers _ S i v Hin) as [n ->].
    apply Hmono. apply (inv_tested _ I) in Hin. lia. }
  assert (Hnone : ignoredItems fin = []).
  { rewrite (inv_ignored _ I).
    assert (Hf : forall t, (forall i v, In (i, v) t ->
                   v = if i <? k then PASS else FAIL) ->
                 filter is_ignore t = []).
    { induction t as [|[i v] t IH]; intros Ht; [reflexivity|].
      cbn. unfold is_ignore at 1. cbn.
      rewrite (Ht i v) by now left.
      destruct (i <? k); cbn; apply IH; intros j w Hj; apply Ht; now right. }
    now rewrite Hf. }
  pose proof (settled_good _ S) as Sg.
  pose proof (settled_above _ S) as Sa. unfold ceiling in Sa.
  rewrite Hnone in Sa.
  pose proof (inv_left _ I) as Il. pose proof (inv_right _ I) as Ir.
  assert (Hg : 0 <= lastGoodIndex fin -> lastGoodIndex fin < k).
  { intros Hg. pose proof (Htruth _ _ (recorded_good fin I Hg)) as Ht.
    destruct (lastGoodIndex fin <? k) eqn:G; [lia|discriminate]. }
  split; [exact E|].
  destruct (firstBadIndex fin >=? 0) eqn:G.
  - assert (Hb : 0 <= firstBadIndex fin) by lia.
    pose proof (recorded_bad fin I Hb) as Hin.
    pose proof (Htruth _ _ Hin) as Ht.
    pose proof (inv_fail _ I _ Hin) as Hr.
    pose proof (inv_tested _ I _ _ Hin) as Hrange.
    assert (firstBadIndex fin = right fin + 1).
    { destruct (Z.eq_dec (firstBadIndex fin) (right fin + 1)); auto.
      destruct (Sa (right fin + 1)). lia. }
    assert (k <= firstBadIndex fin)
      by (destruct (firstBadIndex fin <? k) eqn:G'; [discriminate|lia]).
    assert (k = firstBadIndex fin) by lia.
    destruct (k <? Z.of_nat (List.length items)) eqn:Gk; [|lia].
    repeat split; auto; lia.
  - assert (Hb : firstBadIndex fin = -1) by (apply unset_bad; auto; lia).
    assert (right fin = Z.of_nat (List.length items) - 1).
    { destruct (Z.eq_dec (right fin) (Z.of_nat (List.length items) - 1)); auto.
      destruct (Sa (right fin + 1)). lia. }
    assert (k = Z.of_nat (List.length items)) by lia.
    destruct (k <? Z.of_nat (List.length items)) eqn:Gk; [lia|].
    repeat split; auto; lia.
Qed.

(** X6: for a list of N items of which those before index [k] are good
    and the others bad (0 <= k <= N), and an oracle that says so for every
    item it is shown: the search loop ends with [lastGoodIndex = k - 1]
    (none for k = 0) and [firstBadIndex = k] (none for k = N), and with
    nothing ignored. *)
Theorem clean_run_finds_the_boundary (k : Z) :
  0 <= k <= Z.of_nat (List.length items) ->
  (forall n i, 0 <= i < Z.of_nat (List.length items) ->
     oracle n i = if i <? k then PASS else FAIL) ->
  exists fin,
    bisect_loop (List.length items) initial = Some fin /\
    lastGoodIndex fin = k - 1 /\
    firstBadIndex fin =
      (if k <? Z.of_nat (List.length items) then k else -1) /\
    ignoredItems fin = [].
Proof.
  intros Hk Hmono. exact (clean_boundary k Hk Hmono).
Qed.

(** X19: for a list of N > 0 items of which those before index [k] are
    good and the others bad, and an oracle that says so: [bisect] ends
    with a report that names item [k - 1] as the last good one, at
    position [k], and item [k] as the first bad one, at position [k + 1],
    and says that the issue was introduced between the two; when no item
    is good (or none bad) it says so and names the other one only.  No
    line about ignored or untested items is printed. *)
Theorem clean_run_report (k : Z) :
  items <> [] ->
  0 <= k <= Z.of_nat (List.length items) ->
  (forall n i, 0 <= i < Z.of_nat (List.length items) ->
     oracle n i = if i <? k then PASS else FAIL) ->
  exists fin,
    bisect (List.length items) =
    Some (Completed fin
      ([ nl +++ string_repeat "=" 60; "🎉 Bisect complete!";
         if (0 <? k)%Z then
           "✅ Last good item: " +++ quoted (k - 1)
           +++ " (position " +++ show_Z k +++ ")"
         else "✅ No good items found";
         if (k <? Z.of_nat (List.length items))%Z then
           "❌ First bad item: " +++ quoted k
           +++ " (position " +++ show_Z (k + 1) +++ ")"
         else "❌ No bad items found" ]%string
       ++ (if ((0 <? k) && (k <? Z.of_nat (List.length items)))%Z then
             [ "🔍 The issue was introduced between:";
               "   " +++ quoted (k - 1) +++ " (good) and "
               +++ quoted k +++ " (bad)" ]%string
           else if (0 <? k)%Z then
             [ "🔍 All tested items after " +++ quoted (k - 1)
               +++ " were either ignored or not tested." ]%string
           else
             [ "🔍 All tested items before " +++ quoted k
               +++ " were either ignored or not tested." ]%string))).
Proof.
  intros Hne Hk Hmono.
  destruct (clean_boundary k Hk Hmono) as (fin & E & Hg & Hb & Hi).
  exists fin. unfold bisect. rewrite E.
  assert (Hlen : (List.length items =? 0)%nat = false).
  { apply Nat.eqb_neq. intros H0. now apply Hne, length_zero_iff_nil. }
  rewrite Hlen. do 2 f_equal.
  unfold report, report_header, report_ignored, report_good, report_bad,
    report_boundary.
  rewrite Hi, Hg, Hb. cbn [List.length Nat.ltb Nat.leb app].
  assert (0 < Z.of_nat (List.length items))
    by (apply Nat.eqb_neq in Hlen; lia).
  replace (k - 1 + 1) with k by lia.
  destruct (0 <? k) eqn:G0; destruct (k <? Z.of_nat (List.length items)) eqn:GN;
    try lia.
  - replace (k - 1 >=? 0) with true by lia.
    replace (k >=? 0) with true by lia.
    replace (k - (k - 1) =? 1) with true by lia. reflexivity.
  - replace (k - 1 >=? 0) with true by lia.
    replace (-1 >=? 0) with false by reflexivity.
    replace (-1 =? -1) with true by reflexivity. reflexivity.
  - replace (k - 1 >=? 0) with false by lia.
    replace (k >=? 0) with true by lia.
    replace (k - 1 =? -1) with true by lia. reflexivity.
Qed.

(** X7: for a list of N items of which those before index [k] are good
    and the others bad (0 <= k <= N), and an oracle that for every item it
    is shown either says so or answers [IGNORE]: at the end of the search
    loop [lastGoodIndex] is below [k] and [firstBadIndex], if set, is at
    least [k]; the place of the change lies in the range the report
    gives. *)
Theorem truthful_run_brackets_the_boundary (k : Z) :
  0 <= k <= Z.of_nat (List.length items) ->
  (forall n i, 0 <= i < Z.of_nat (List.length items) ->
     oracle n i = IGNORE \/ oracle n i = if i <? k then PASS else FAIL) ->
  exists fin,
    bisect_loop (List.length items) initial = Some fin /\
    lastGoodIndex fin < k /\
    (0 <= firstBadIndex fin -> k <= firstBadIndex fin).
Proof.
  intros Hk Htrue.
  destruct run_settles as (fin & E & I & S & Hend). exists fin.
  assert (Htruth : forall i v, In (i, v) (prompts fin) ->
            v = IGNORE \/ v = if i <? k then PASS else FAIL).
  { intros i v Hin. destruct (settled_answers _ S i v Hin) as [n ->].
    apply Htrue. apply (inv_tested _ I) in Hin. lia. }
  split; [exact E|]. split.
  - destruct (Z_lt_ge_dec (lastGoodIndex fin) 0) as [Hn|Hg]; [lia|].
    destruct (Htruth _ _ (recorded_good fin I ltac:(lia))) as [Ht|Ht];
      [discriminate|].
    destruct (lastGoodIndex fin <? k) eqn:G; [lia|discriminate].
  - intros Hb.
    destruct (Htruth _ _ (recorded_bad fin I Hb)) as [Ht|Ht]; [discriminate|].
    destruct (firstBadIndex fin <? k) eqn:G; [discriminate|lia].
Qed.

(** X8: for every list of items and every oracle, at the end of the
    search loop [ignoredItems] lists the indices of the tests answered
    [IGNORE], in the order of the tests, each index once. *)
Theorem ignored_items_are_the_ignored_tests :
  exists fin,
    bisect_loop (List.length items) initial = Some fin /\
    ignoredItems fin = map fst (filter is_ignore (prompts fin)) /\
    NoDup (ignoredItems fin).
Proof.
  destruct run_completes as (fin & E & I & _). exists fin.
  split; [exact E|]. split; [apply (inv_ignored _ I)|].
  rewrite (inv_ignored _ I). apply NoDup_map_filter, (inv_nodup _ I).
Qed.

End Engine.

(** ** Sample runs *)

(** Three items, the second one failing and the first one passing: two
    tests, at indices 1 and 0, and the change lies between the first two
    items. *)
Example run_on_three_items :
  bisect checkout_options [ "v1"; "v2"; "v3" ]%string (bad_from 1) 3 =
  Some (Completed
          (mkState 1 0 0 1 [] [(1, FAIL); (0, PASS)]
             [ "git checkout v2"; "npm test"; "git checkout v1"; "npm test" ]%string)
          [ nl +++ string_repeat "=" 60;
            "🎉 Bisect complete!"%string;
            "✅ Last good item: " +++ dq +++ "v1" +++ dq +++ " (position 1)";
            "❌ First bad item: " +++ dq +++ "v2" +++ dq +++ " (position 2)";
            "🔍 The issue was introduced between:"%string;
            "   " +++ dq +++ "v1" +++ dq +++ " (good) and "
            +++ dq +++ "v2" +++ dq +++ " (bad)" ]).
Proof. vm_compute. reflexivity. Qed.

(** Eight items, all ignored: the upper half is swept first, then what
    is left of the lower half, from its midpoint up each time. *)
Example run_on_eight_ignored_items :
  option_map (fun st => (ignoredItems st, lastGoodIndex st, firstBadIndex st))
    (bisect_loop checkout_options eight_items always_ignore 8
       (initial eight_items)) =
  Some ([3; 4; 5; 6; 7; 1; 2; 0], -1, -1).
Proof. vm_compute. reflexivity. Qed.

(** ** The code where two claims fail *)

(** C1 fails as it is stated: on eight items, when the user ignores the
    item at index 3 (the midpoint) and fails the one at index 4, the inner
    loop records [firstBadIndex = 4], sets [right = 4 - 1] and stops at
    [currentIndex = 4]; the check after the inner loop,
    [currentIndex > right], then holds as well, and the pass through the
    outer loop ends with [right = 3 - 1], one below the midpoint, and not
    with [right = 4 - 1]. *)
Theorem fail_after_ignore_narrows_below_mid :
  midpoint (initial eight_items) = 3 /\
  exists st1 st2,
    inner_loop checkout_options eight_items ignore3_fail4 5
      (initial eight_items) 3 = Some (st1, 4) /\
    prompts st1 = [(3, IGNORE); (4, FAIL)] /\
    firstBadIndex st1 = 4 /\ right st1 = 4 - 1 /\
    outer_body checkout_options eight_items ignore3_fail4
      (initial eight_items) = Some st2 /\
    prompts st2 = [(3, IGNORE); (4, FAIL)] /\
    firstBadIndex st2 = 4 /\ right st2 = 3 - 1 /\ right st2 <> 4 - 1.
Proof.
  split; [reflexivity|].
  eexists. eexists.
  split; [vm_compute; reflexivity|].
  split; [reflexivity|]. split; [reflexivity|]. split; [reflexivity|].
  split; [vm_compute; reflexivity|].
  split; [reflexivity|]. split; [reflexivity|]. split; [reflexivity|].
  discriminate.
Qed.

(** C2: with the test command [run-test @i] and the state command
    [checkout @i], the one test of the one item [abc] hands the shell
    [checkout abc] and then [run-test @i]: the placeholder of the test
    command is not replaced, where replacing it would give
    [run-test abc]. *)
Theorem test_command_keeps_its_placeholder :
  exists fin,
    bisect_loop placeholder_options ["abc"%string] (bad_from 1) 1
      (initial ["abc"%string]) = Some fin /\
    prompts fin = [(0, PASS)] /\
    spawned fin = [ "checkout abc"; "run-test @i" ]%string /\
    replaceAll "run-test @i" "@i" "abc" = "run-test abc"%string /\
    ~ In "run-test abc"%string (spawned fin).
Proof.
  eexists. split; [vm_compute; reflexivity|].
  split; [reflexivity|]. split; [reflexivity|]. split; [reflexivity|].
  intros [H|[H|[]]]; discriminate H.
Qed.

(** ** The claims at sample inputs *)

Lemma clean_run_is_logarithmic_witness :
  exists fin,
    bisect checkout_options four_items (bad_from 2) (List.length four_items) =
      Some (Completed fin (report four_items fin)) /\
    Z.of_nat (List.length (prompts fin)) <=
      Z.log2_up (Z.of_nat (List.length four_items)) + 1 /\
    (0 <= lastGoodIndex fin -> 0 <= firstBadIndex fin ->
     lastGoodIndex fin + 1 = firstBadIndex fin).
Proof.
  apply (clean_run_is_logarithmic checkout_options four_items (bad_from 2) 2).
  - cbn. lia.
  - intros n i Hi. reflexivity.
Defined.

Lemma all_ignored_run_witness :
  exists fin,
    bisect checkout_options eight_items always_ignore
      (List.length eight_items) =
      Some (Completed fin (report eight_items fin)) /\
    Permutation (map fst (prompts fin))
      (zrange 0 (Z.of_nat (List.length eight_items))) /\
    Permutation (ignoredItems fin)
      (zrange 0 (Z.of_nat (List.length eight_items))) /\
    lastGoodIndex fin = -1 /\ firstBadIndex fin = -1 /\
    report eight_items fin =
    report_header ++ report_ignored eight_items fin
    ++ [ "✅ No good items found"%string; "❌ No bad items found"%string ].
Proof.
  apply (all_ignored_run_tests_every_item_once checkout_options eight_items
           always_ignore).
  - cbn. lia.
  - intros n i Hi. reflexivity.
Defined.

Lemma report_boundary_witness :
  (firstBadIndex gap_state - lastGoodIndex gap_state = 1 ->
   report_boundary eight_items gap_state =
   [ "🔍 The issue was introduced between:"%string;
     "   " +++ quoted eight_items (lastGoodIndex gap_state)
     +++ " (good) and "
     +++ quoted eight_items (firstBadIndex gap_state) +++ " (bad)" ]) /\
  (firstBadIndex gap_state - lastGoodIndex gap_state > 1 ->
   itemsInBetween eight_items gap_state =
   map (fun i =>
          quoted eight_items i +++
          (if in_dec Z.eq_dec i (ignoredItems gap_state)
           then " (ignored)" else " (untested)"))
     (zrange (lastGoodIndex gap_state + 1) (firstBadIndex gap_state)) /\
   report_boundary eight_items gap_state =
   [ "🔍 The issue was introduced somewhere in this range:"%string;
     "   After: " +++ quoted eight_items (lastGoodIndex gap_state)
     +++ " (good)";
     "   Between: " +++ join ", " (itemsInBetween eight_items gap_state);
     "   Before: " +++ quoted eight_items (firstBadIndex gap_state)
     +++ " (bad)" ]
   ++ (if existsb (fun item => includes item "(untested)")
            (itemsInBetween eight_items gap_state)
       then [ "💡 Consider testing the untested items to narrow down further."%string ]
       else [])).
Proof.
  apply (report_locates_the_boundary eight_items gap_state); cbn; lia.
Defined.

Lemma ternary_engine_runs_as_binary_witness :
  exists fin bfin,
    bisect_loop checkout_options eight_items (bad_from 3)
      (List.length eight_items) (initial eight_items) = Some fin /\
    Binary.bisect_loop checkout_options eight_items (as_binary (bad_from 3))
      (List.length eight_items) (Binary.initial eight_items) = Some bfin /\
    map fst (prompts fin) = map fst (Binary.prompts bfin) /\
    map (fun e => (fst e, is_pass (snd e))) (prompts fin) =
      Binary.prompts bfin /\
    lastGoodIndex fin = Binary.lastGoodIndex bfin /\
    firstBadIndex fin = Binary.firstBadIndex bfin /\
    ignoredItems fin = [].
Proof.
  apply (ternary_engine_runs_as_binary checkout_options eight_items
           (bad_from 3)).
  intros n i. unfold bad_from. destruct (i <? 3); discriminate.
Defined.

Lemma fail_leaves_right_below_mid_witness :
  exists st1 st2,
    inner_loop checkout_options eight_items ignore3_fail4
      (Z.to_nat (right (initial eight_items)
                 - midpoint (initial eight_items) + 1))
      (initial eight_items) (midpoint (initial eight_items)) =
      Some (st1, 4) /\
    firstBadIndex st1 = 4 /\ right st1 = 4 - 1 /\
    outer_body checkout_options eight_items ignore3_fail4
      (initial eight_items) = Some st2 /\
    firstBadIndex st2 = 4 /\ left st2 = left (initial eight_items) /\
    right st2 = midpoint (initial eight_items) - 1 /\
    (right st2 = 4 - 1 <-> 4 = midpoint (initial eight_items)).
Proof.
  apply (fail_leaves_right_below_mid checkout_options eight_items
           ignore3_fail4 (initial eight_items) 4).
  - cbn. lia.
  - unfold midpoint. cbn. lia.
  - intros i Hi. unfold midpoint in Hi. cbn in Hi.
    replace i with 3 by lia. reflexivity.
  - reflexivity.
Defined.

(** ** The whole program *)


(** ** Lines and items *)


Lemma split_lines_one x : newline_free x -> split_lines x = [x].
Proof.
  induction x as [|c r IH]; intros H; [reflexivity|]. cbn.
  destruct (code c =? 10)%nat eqn:E.
  - exfalso. apply H. left. apply Nat.eqb_eq in E. unfold code in E.
    rewrite <- E. now rewrite ascii_nat_embedding.
  - rewrite IH; [reflexivity|]. intros Hin. apply H. now right.
Qed.

Lemma split_lines_first x rest :
  newline_free x -> split_lines (x +++ nl +++ rest) = x :: split_lines rest.
Proof.
  induction x as [|c r IH]; intros H; [reflexivity|]. cbn.
  destruct (code c =? 10)%nat eqn:E.
  - exfalso. apply H. left. apply Nat.eqb_eq in E. unfold code in E.
    rewrite <- E. now rewrite ascii_nat_embedding.
  - cbn in IH. rewrite IH; [reflexivity|]. intros Hin. apply H. now right.
Qed.

Lemma append_assoc (a b c : string) : (a +++ b) +++ c = a +++ b +++ c.
Proof. induction a as [|x a IH]; cbn; [reflexivity|now rewrite IH]. Qed.

Lemma split_lines_join items :
  Forall newline_free items -> items <> [] ->
  split_lines (join nl items) = items /\
  split_lines (join nl items +++ nl) = items ++ [EmptyString].
Proof.
  induction items as [|x items IH]; intros Hall Hne; [contradiction|].
  inversion Hall as [|? ? Hx Hitems]; subst.
  destruct items as [|y items].
  - cbn [join app]. split; [now apply split_lines_one|].
    change (x +++ nl) with (x +++ nl +++ EmptyString).
    now rewrite split_lines_first.
  - replace (join nl (x :: y :: items))
      with (x +++ nl +++ join nl (y :: items)) by reflexivity.
    destruct IH as [IH1 IH2]; [exact Hitems|discriminate|].
    rewrite !append_assoc, !split_lines_first by exact Hx.
    rewrite IH1, IH2. split; reflexivity.
Qed.


Lemma filter_all {A} (f : A -> bool) l :
  Forall (fun x => f x = true) l -> filter f l = l.
Proof.
  induction 1 as [|x l Hx _ IH]; cbn; [reflexivity|].
  now rewrite Hx, IH.
Qed.


(** X10: a list of items none of which is blank or contains a line feed,
    written to a file one item per line, with or without a line feed
    after the last one, is read back by [loadItems] as the same list. *)
Theorem items_file_round_trip
    (files : Files) (filename : string) (items : list string) :
  Forall (fun x => blank x = false /\ newline_free x) items ->
  files filename = Some (join nl items) \/
  files filename = Some (join nl items +++ nl) ->
  loadItems files filename = Some items.
Proof.
  intros Hall Hfile.
  assert (Hkeep : filter (fun line => negb (blank line)) items = items).
  { apply filter_all. apply Forall_forall. intros x Hx.
    rewrite Forall_forall in Hall. destruct (Hall x Hx) as [-> _].
    reflexivity. }
  assert (Hfree : Forall newline_free items).
  { apply Forall_forall. intros x Hx. rewrite Forall_forall in Hall.
    now destruct (Hall x Hx). }
  unfold loadItems.
  destruct items as [|x items].
  - destruct Hfile as [-> | ->]; reflexivity.
  - destruct (split_lines_join (x :: items) Hfree ltac:(discriminate))
      as [H1 H2].
    destruct Hfile as [-> | ->].
    + now rewrite H1, Hkeep.
    + rewrite H2, filter_app, Hkeep. cbn [filter blank trimStart negb].
      now rewrite app_nil_r.
Qed.

(** ** The prompt *)

Lemma toLowerCase_app a b :
  toLowerCase (a +++ b) = toLowerCase a +++ toLowerCase b.
Proof. induction a as [|c a IH]; cbn; [reflexivity|now rewrite IH]. Qed.

Lemma toLowerCase_spaces n : toLowerCase (spaces n) = spaces n.
Proof.
  unfold spaces. induction n as [|n IH]; [reflexivity|].
  cbn [string_repeat]. rewrite toLowerCase_app, IH. reflexivity.
Qed.

Lemma trimStart_spaces n t : trimStart (spaces n +++ t) = trimStart t.
Proof.
  unfold spaces. induction n as [|n IH]; [reflexivity|].
  cbn [string_repeat]. rewrite append_assoc. exact IH.
Qed.

Lemma blank_spaces n : blank (spaces n) = true.
Proof.
  unfold blank, spaces. induction n as [|n IH]; [reflexivity|exact IH].
Qed.

Lemma trimEnd_blank s : blank s = true -> trimEnd s = EmptyString.
Proof. intros H. destruct s; cbn [trimEnd]; now rewrite ?H. Qed.

Lemma trimStart_cons c r :
  is_ws1 c = false -> is_ws_lead c = false ->
  trimStart (String c r) = String c r.
Proof. intros H1 H2. cbn [trimStart]. now rewrite H1, H2. Qed.

Lemma trimEnd_cons c r :
  is_ws1 c = false -> is_ws_lead c = false ->
  trimEnd (String c r) = String c (trimEnd r).
Proof.
  intros H1 H2. cbn [trimEnd]. unfold blank.
  now rewrite trimStart_cons.
Qed.

(** X11: [confirmResult] takes the six words, whatever the case of
    their letters and with any number of spaces before and after, for
    their verdicts. *)
Theorem verdict_words_ignore_case_and_spaces
    (word text : string) (result : TestResult) (before after : nat) :
  In (word, result) verdict_words ->
  toLowerCase text = word ->
  recognize (Some (spaces before +++ text +++ spaces after)) = Some result.
Proof.
  intros Hin Hlow. unfold recognize.
  rewrite !toLowerCase_app, !toLowerCase_spaces, Hlow.
  unfold trim. rewrite trimStart_spaces.
  pose proof (trimEnd_blank (spaces after) (blank_spaces after)) as Hend.
  unfold verdict_words in Hin.
  repeat (destruct Hin as [[= <- <-]|Hin];
          [cbn [String.append];
           rewrite trimStart_cons by reflexivity;
           rewrite !trimEnd_cons by reflexivity;
           rewrite Hend; reflexivity|]).
  destruct Hin.
Qed.

(** X12: [confirmResult] asks again after every answer it does not
    recognize (the prompt closed without an answer included) and returns
    the verdict of the first answer it recognizes, leaving the later
    answers unread; while no answer is recognized it returns nothing. *)
Theorem unrecognized_answers_are_asked_again
    (unrecognized rest : list (option string)) (answer : option string)
    (result : TestResult) :
  Forall (fun a => recognize a = None) unrecognized ->
  recognize answer = Some result ->
  confirm_answers (unrecognized ++ answer :: rest) = Some (result, rest) /\
  confirm_answers unrecognized = None.
Proof.
  intros Hall Hans. induction Hall as [|a l Ha _ IH]; cbn.
  - now rewrite Hans.
  - rewrite Ha. exact IH.
Qed.

(** ** Before the search *)



(** ** The commands *)

Lemma getSubstitution_literal matched before after template :
  includes template "$" = false ->
  getSubstitution matched before after template = template.
Proof.
  induction template as [|c rest IH]; [reflexivity|].
  cbn [includes prefix]. intros H. apply orb_false_iff in H.
  destruct H as [Hc Hrest].
  assert (Ascii.eqb c "$" = false) as E.
  { apply Ascii.eqb_neq. intros ->.
    destruct (ascii_dec "$" "$"); [now destruct rest|contradiction]. }
  cbn [getSubstitution]. rewrite E. now rewrite IH.
Qed.

Lemma replaceAll_from_before pattern item :
  includes item "$" = false ->
  forall s skip b1 b2,
    replaceAll_from pattern item skip b1 s =
    replaceAll_from pattern item skip b2 s.
Proof.
  intros Hitem. induction s as [|c r IH]; intros skip b1 b2; [reflexivity|].
  cbn [replaceAll_from]. destruct skip as [|k]; [|apply IH].
  destruct (prefix pattern (String c r)).
  - rewrite !getSubstitution_literal by exact Hitem. f_equal. apply IH.
  - f_equal. apply IH.
Qed.

Lemma replaceAll_from_without pattern item s :
  includes s pattern = false ->
  forall before, replaceAll_from pattern item 0 before s = s.
Proof.
  induction s as [|c r IH]; intros H before; [reflexivity|].
  cbn [includes] in H. apply orb_false_iff in H. destruct H as [Hp Hr].
  cbn [replaceAll_from]. rewrite Hp. now rewrite IH.
Qed.

Lemma replace_from_without pattern item s :
  includes s pattern = false ->
  forall before, replace_from pattern item before s = s.
Proof.
  induction s as [|c r IH]; intros H before.
  - cbn [includes] in H. rewrite orb_false_r in H.
    cbn [replace_from]. now rewrite H.
  - cbn [includes] in H. apply orb_false_iff in H. destruct H as [Hp Hr].
    cbn [replace_from]. rewrite Hp. now rewrite IH.
Qed.

(** X14: a command that does not contain the placeholder [@i] is handed
    to the shell as it is, whatever the item, in both variants. *)
Theorem command_without_placeholder_runs_as_given
    (command : string) (item : option string)
    (st : State) (b : Binary.State) :
  includes command "@i" = false ->
  spawned (runCommand command item st) = spawned st ++ [command] /\
  Binary.spawned (Binary.runCommand command item b) =
  Binary.spawned b ++ [command].
Proof.
  intros H. unfold runCommand, Binary.runCommand, replaceAll, replace. cbn.
  rewrite replaceAll_from_without, replace_from_without by exact H.
  now destruct (truthy item).
Qed.

Lemma prefix_at_i c r : c <> "@"%char -> prefix "@i" (String c r) = false.
Proof.
  intros Hc. cbn [prefix].
  destruct (ascii_dec "@" c) as [E|_]; [now subst c|reflexivity].
Qed.

Lemma includes_at_cons c r :
  includes (String c r) "@" = false ->
  c <> "@"%char /\ includes r "@" = false.
Proof.
  cbn [includes prefix]. intros H. apply orb_false_iff in H.
  destruct H as [Hc Hr]. split; [|exact Hr].
  intros ->. destruct (ascii_dec "@" "@"); [now destruct r|contradiction].
Qed.

Lemma replaceAll_first pre post item :
  includes pre "@" = false -> includes item "$" = false ->
  forall before,
    replaceAll_from "@i" item 0 before (pre +++ "@i" +++ post) =
    pre +++ item +++ replaceAll post "@i" item.
Proof.
  intros Hpre Hitem. induction pre as [|c pre IH]; intros before.
  - cbn [String.append replaceAll_from].
    replace (prefix "@i" (String "@" (String "i" post))) with true
      by (cbn; now destruct post).
    rewrite getSubstitution_literal by exact Hitem.
    cbn [String.length Nat.sub replaceAll_from]. f_equal.
    apply replaceAll_from_before, Hitem.
  - apply includes_at_cons in Hpre. destruct Hpre as [Hc Hpre].
    cbn [String.append replaceAll_from].
    rewrite prefix_at_i by exact Hc. f_equal. now apply IH.
Qed.

Lemma replace_first pre post item :
  includes pre "@" = false -> includes item "$" = false ->
  forall before,
    replace_from "@i" item before (pre +++ "@i" +++ post) =
    pre +++ item +++ post.
Proof.
  intros Hpre Hitem. induction pre as [|c pre IH]; intros before.
  - cbn [String.append replace_from].
    replace (prefix "@i" (String "@" (String "i" post))) with true
      by (cbn; now destruct post).
    rewrite getSubstitution_literal by exact Hitem. reflexivity.
  - apply includes_at_cons in Hpre. destruct Hpre as [Hc Hpre].
    cbn [String.append replace_from].
    rewrite prefix_at_i by exact Hc. f_equal. now apply IH.
Qed.

(** X15: for an item that is not empty and has no dollar sign, and a
    command whose first [@] is that of a placeholder [@i]: the ternary
    variant puts the item in the place of this placeholder and of every
    later one, the binary variant of [main.ts] in the place of this one
    only, and hands the rest of the command to the shell as it is. *)
Theorem first_placeholder_or_every_one
    (pre post item : string) (st : State) (b : Binary.State) :
  includes pre "@" = false -> includes item "$" = false ->
  item <> EmptyString ->
  spawned (runCommand (pre +++ "@i" +++ post) (Some item) st) =
    spawned st ++ [pre +++ item +++ replaceAll post "@i" item] /\
  Binary.spawned (Binary.runCommand (pre +++ "@i" +++ post) (Some item) b) =
    Binary.spawned b ++ [pre +++ item +++ post].
Proof.
  intros Hpre Hitem Hne. unfold runCommand, Binary.runCommand.
  assert (truthy (Some item) = true) as -> by now destruct item.
  cbn [spawned Binary.spawned show_item]. unfold replaceAll, replace.
  now rewrite replaceAll_first, replace_first.
Qed.

(** ** The binary variant of [main.ts] *)

Section BinaryFacts.
Variable options : BisectOptions.
Variable items : list string.
Variable oracle : Binary.Oracle.

Lemma binary_body_fields st :
  let mid := (Binary.left st + Binary.right st) / 2 in
  let passed := oracle (List.length (Binary.prompts st)) mid in
  let st' := Binary.loop_body options items oracle st in
  Binary.left st' = (if passed then mid + 1 else Binary.left st) /\
  Binary.right st' = (if passed then Binary.right st else mid - 1) /\
  Binary.lastGoodIndex st' =
    (if passed then mid else Binary.lastGoodIndex st) /\
  Binary.firstBadIndex st' =
    (if passed then Binary.firstBadIndex st else mid) /\
  Binary.prompts st' = Binary.prompts st ++ [(mid, passed)].
Proof.
  unfold Binary.loop_body, Binary.confirmResult, Binary.runCommand.
  destruct (truthy (nextStateCommand options)); cbn;
    destruct (oracle _ _); cbn; repeat split.
Qed.

Lemma binary_run fuel : forall st,
  BinaryInv items st ->
  Binary.right st - Binary.left st + 1 <= Z.of_nat fuel ->
  exists fin,
    Binary.bisect_loop options items oracle fuel st = Some fin /\
    BinaryInv items fin /\
    Binary.left fin = Binary.right fin + 1 /\
    Z.of_nat (List.length (Binary.prompts fin)) <=
      Z.of_nat (List.length (Binary.prompts st)) +
      tests_bound (Binary.right st - Binary.left st + 1) /\
    forall k,
      (forall n i, 0 <= i < Z.of_nat (List.length items) ->
                   oracle n i = (i <? k)) ->
      Binary.left st <= k <= Binary.right st + 1 ->
      Binary.left fin <= k <= Binary.right fin + 1.
Proof.
  induction fuel as [|fuel IH]; intros st I Hfuel.
  - destruct I. exists st. cbn [Binary.bisect_loop].
    replace (Binary.left st <=? Binary.right st) with false by lia.
    split; [reflexivity|]. split; [constructor; assumption|].
    split; [lia|].
    split; [pose proof (tests_bound_nonneg
                          (Binary.right st - Binary.left st + 1)); lia|].
    intros; assumption.
  - cbn [Binary.bisect_loop].
    destruct (Binary.left st <=? Binary.right st) eqn:E.
    2:{ destruct I. exists st. split; [reflexivity|].
        split; [constructor; assumption|]. split; [lia|].
        split; [pose proof (tests_bound_nonneg
                              (Binary.right st - Binary.left st + 1)); lia|].
        intros; assumption. }
    apply Z.leb_le in E.
    pose proof (binary_body_fields st) as F. cbn zeta in F.
    set (mid := (Binary.left st + Binary.right st) / 2) in *.
    set (passed := oracle (List.length (Binary.prompts st)) mid) in *.
    set (st' := Binary.loop_body options items oracle st) in *.
    destruct F as (Fl & Fr & Fg & Fb & Fp).
    assert (Hmid : Binary.left st <= mid <= Binary.right st).
    { subst mid. split.
      - apply Z.div_le_lower_bound; lia.
      - apply Z.div_le_upper_bound; lia. }
    destruct I as [I1 I2 I3 I4 I5].
    assert (I' : BinaryInv items st').
    { destruct passed; constructor; rewrite ?Fl, ?Fr, ?Fg, ?Fb; lia. }
    assert (Hhalf :
      2 * (Binary.right st' - Binary.left st' + 1) <=
      Binary.right st - Binary.left st + 1).
    { rewrite Fl, Fr.
      pose proof (Z.div_mod (Binary.left st + Binary.right st) 2
                    ltac:(lia)) as Hd.
      pose proof (Z.mod_pos_bound (Binary.left st + Binary.right st) 2
                    ltac:(lia)) as Hm.
      fold mid in Hd. destruct passed; lia. }
    destruct (IH st' I' ltac:(lia)) as (fin & Efin & Ifin & Hend & Hlen & Hk).
    exists fin. split; [exact Efin|]. split; [exact Ifin|].
    split; [exact Hend|]. split.
    + rewrite Fp, length_app in Hlen. cbn [List.length] in Hlen.
      pose proof (tests_bound_halves
                    (Binary.right st - Binary.left st + 1)
                    (Binary.right st' - Binary.left st' + 1)
                    ltac:(lia) Hhalf).
      lia.
    + intros k Hmono Hbetween. apply (Hk k Hmono).
      rewrite Fl, Fr. unfold passed.
      rewrite (Hmono _ mid) by lia.
      destruct (mid <? k) eqn:Ek; lia.
Qed.

Lemma BinaryInv_initial : BinaryInv items (Binary.initial items).
Proof. constructor; cbn; lia. Qed.

(** X16: whatever the answers, the binary search of [main.ts] ends
    within one pass per item and at most [log2 N + 1] tests, and names an
    adjacent pair: the first bad index is the one after the last good
    index and that of an item, or no item was found bad and the last good
    item is the last of the list. *)
Theorem binary_search_names_adjacent_items :
  exists fin,
    Binary.bisect_loop options items oracle (List.length items)
      (Binary.initial items) = Some fin /\
    Z.of_nat (List.length (Binary.prompts fin)) <=
      Z.log2 (Z.of_nat (List.length items)) + 1 /\
    -1 <= Binary.lastGoodIndex fin < Z.of_nat (List.length items) /\
    ((Binary.firstBadIndex fin = Binary.lastGoodIndex fin + 1 /\
      Binary.firstBadIndex fin < Z.of_nat (List.length items)) \/
     (Binary.firstBadIndex fin = -1 /\
      Binary.lastGoodIndex fin = Z.of_nat (List.length items) - 1)).
Proof.
  destruct (binary_run (List.length items) (Binary.initial items)
              BinaryInv_initial ltac:(cbn; lia))
    as (fin & Efin & [I1 I2 I3 I4 I5] & Hend & Hlen & _).
  exists fin. split; [exact Efin|]. split.
  - cbn in Hlen. unfold tests_bound in Hlen.
    pose proof (Z.log2_nonneg (Z.of_nat (List.length items))).
    replace (Z.of_nat (List.length items) - 1 - 0 + 1)
      with (Z.of_nat (List.length items)) in Hlen by lia.
    destruct (Z.of_nat (List.length items) <=? 0); lia.
  - split; lia.
Qed.

(** X17: when every item below [k] passes and every other item fails,
    the binary search ends with the last good index [k - 1] and the first
    bad index [k] (or none, when every item passes). *)
Theorem binary_search_finds_the_boundary (k : Z) :
  0 <= k <= Z.of_nat (List.length items) ->
  (forall n i, 0 <= i < Z.of_nat (List.length items) ->
               oracle n i = (i <? k)) ->
  exists fin,
    Binary.bisect_loop options items oracle (List.length items)
      (Binary.initial items) = Some fin /\
    Binary.lastGoodIndex fin = k - 1 /\
    Binary.firstBadIndex fin =
      (if k <? Z.of_nat (List.length items) then k else -1).
Proof.
  intros Hk Hmono.
  destruct (binary_run (List.length items) (Binary.initial items)
              BinaryInv_initial ltac:(cbn; lia))
    as (fin & Efin & [I1 I2 I3 I4 I5] & Hend & _ & Hbetween).
  specialize (Hbetween k Hmono ltac:(cbn; lia)).
  exists fin. split; [exact Efin|].
  destruct (k <? Z.of_nat (List.length items)) eqn:E; lia.
Qed.

(** X18: when the binary search has found a good and a bad item, its
    report names the two, at their positions counted from 1, and says
    that the issue was introduced between them. *)
Theorem binary_report_names_the_pair :
  exists fin,
    Binary.bisect_loop options items oracle (List.length items)
      (Binary.initial items) = Some fin /\
    (0 <= Binary.lastGoodIndex fin -> 0 <= Binary.firstBadIndex fin ->
     let good := Binary.lastGoodIndex fin in
     Binary.report items fin =
     [ nl +++ string_repeat "=" 50; "🎉 Bisect complete!";
       "✅ Last good item: " +++ Binary.quoted items good
         +++ " (position " +++ show_Z (good + 1) +++ ")";
       "❌ First bad item: " +++ Binary.quoted items (good + 1)
         +++ " (position " +++ show_Z (good + 2) +++ ")";
       "🔍 The issue was introduced between:";
       "   " +++ Binary.quoted items good +++ " (good) and "
         +++ Binary.quoted items (good + 1) +++ " (bad)" ]%string).
Proof.
  destruct (binary_run (List.length items) (Binary.initial items)
              BinaryInv_initial ltac:(cbn; lia))
    as (fin & Efin & [I1 I2 I3 I4 I5] & Hend & _ & _).
  exists fin. split; [exact Efin|]. intros Hg Hb good.
  assert (Binary.firstBadIndex fin = good + 1) as Eb by (subst good; lia).
  unfold Binary.report. rewrite Eb. fold good.
  replace (good >=? 0) with true by lia.
  replace (good + 1 >=? 0) with true by lia.
  rewrite Z.eqb_refl. cbn [andb app].
  replace (good + 1 + 1) with (good + 2) by lia. reflexivity.
Qed.

End BinaryFacts.

(** ** The properties above on sample inputs *)

Lemma clean_run_finds_the_boundary_witness :
  exists fin,
    bisect_loop checkout_options eight_items (bad_from 5)
      (List.length eight_items) (initial eight_items) = Some fin /\
    lastGoodIndex fin = 5 - 1 /\
    firstBadIndex fin =
      (if 5 <? Z.of_nat (List.length eight_items) then 5 else -1) /\
    ignoredItems fin = [].
Proof.
  apply (clean_run_finds_the_boundary checkout_options eight_items
           (bad_from 5) 5).
  - cbn. lia.
  - intros n i Hi. reflexivity.
Defined.

Lemma truthful_run_brackets_the_boundary_witness :
  exists fin,
    bisect_loop checkout_options eight_items (ignore3_bad_from 4)
      (List.length eight_items) (initial eight_items) = Some fin /\
    lastGoodIndex fin < 4 /\
    (0 <= firstBadIndex fin -> 4 <= firstBadIndex fin).
Proof.
  apply (truthful_run_brackets_the_boundary checkout_options eight_items
           (ignore3_bad_from 4) 4).
  - cbn. lia.
  - intros n i Hi. unfold ignore3_bad_from.
    destruct (i =? 3); [left|right]; reflexivity.
Defined.


Lemma items_file_round_trip_witness :
  loadItems sample_files "versions.txt"%string =
  Some [ "1.0.0"; "1.1.0"; "1.2.0"; "2.0.0" ]%string.
Proof.
  apply (items_file_round_trip sample_files "versions.txt"%string).
  - repeat (apply Forall_cons;
            [split; [reflexivity
                    |unfold newline_free; cbn; intuition discriminate]|]).
    apply Forall_nil.
  - right. reflexivity.
Defined.

Lemma verdict_words_witness :
  recognize (Some (spaces 2 +++ "PaSs" +++ spaces 1)) = Some PASS.
Proof.
  apply (verdict_words_ignore_case_and_spaces "pass" "PaSs" PASS 2 1).
  - cbn. tauto.
  - reflexivity.
Defined.

Lemma asked_again_witness :
  confirm_answers
    ([ None; Some "yes"; Some EmptyString ]%string
       ++ Some " F"%string :: [ Some "p"%string ])
    = Some (FAIL, [ Some "p"%string ]) /\
  confirm_answers [ None; Some "yes"; Some EmptyString ]%string = None.
Proof.
  apply (unrecognized_answers_are_asked_again
           [ None; Some "yes"; Some EmptyString ]%string
           [ Some "p"%string ] (Some " F"%string) FAIL).
  - repeat constructor.
  - reflexivity.
Defined.

Lemma command_without_placeholder_witness :
  spawned (runCommand "npm test" (Some "c1"%string) (initial four_items)) =
    spawned (initial four_items) ++ [ "npm test"%string ] /\
  Binary.spawned
    (Binary.runCommand "npm test" (Some "c1"%string)
       (Binary.initial four_items)) =
    Binary.spawned (Binary.initial four_items) ++ [ "npm test"%string ].
Proof.
  apply (command_without_placeholder_runs_as_given "npm test"
           (Some "c1"%string) (initial four_items)
           (Binary.initial four_items)).
  reflexivity.
Defined.

Lemma first_placeholder_witness :
  spawned
    (runCommand ("git checkout " +++ "@i" +++ " && echo @i")
       (Some "v1.2"%string) (initial four_items)) =
    spawned (initial four_items)
      ++ [ "git checkout " +++ "v1.2"
           +++ replaceAll " && echo @i" "@i" "v1.2" ] /\
  Binary.spawned
    (Binary.runCommand ("git checkout " +++ "@i" +++ " && echo @i")
       (Some "v1.2"%string) (Binary.initial four_items)) =
    Binary.spawned (Binary.initial four_items)
      ++ [ "git checkout " +++ "v1.2" +++ " && echo @i" ].
Proof.
  apply (first_placeholder_or_every_one "git checkout " " && echo @i"
           "v1.2" (initial four_items) (Binary.initial four_items)).
  - reflexivity.
  - reflexivity.
  - discriminate.
Defined.

Lemma binary_search_finds_the_boundary_witness :
  exists fin,
    Binary.bisect_loop checkout_options four_items (good_before 2)
      (List.length four_items) (Binary.initial four_items) = Some fin /\
    Binary.lastGoodIndex fin = 2 - 1 /\
    Binary.firstBadIndex fin =
      (if 2 <? Z.of_nat (List.length four_items) then 2 else -1).
Proof.
  apply (binary_search_finds_the_boundary checkout_options four_items
           (good_before 2) 2).
  - cbn. lia.
  - intros n i Hi. reflexivity.
Defined.

Lemma clean_run_report_witness :
  exists fin,
    bisect checkout_options four_items (bad_from 2)
      (List.length four_items) =
    Some (Completed fin
      [ nl +++ string_repeat "=" 60; "🎉 Bisect complete!";
        "✅ Last good item: " +++ quoted four_items 1
          +++ " (position " +++ show_Z 2 +++ ")";
        "❌ First bad item: " +++ quoted four_items 2
          +++ " (position " +++ show_Z 3 +++ ")";
        "🔍 The issue was introduced between:";
        "   " +++ quoted four_items 1 +++ " (good) and "
          +++ quoted four_items 2 +++ " (bad)" ]%string).
Proof.
  apply (clean_run_report checkout_options four_items (bad_from 2) 2).
  - discriminate.
  - cbn. lia.
  - intros n i Hi. reflexivity.
Defined.
